(** * The mlx-image [Trainer]: a shallow embedding of
      [src/mlxim/trainer/trainer.py] and the properties of its epoch loop.

    Conventions of the embedding.

    - Python floats are idealised as exact rationals ([Qc]); the one
      non-number the loop can produce, [nan] (mean of an empty sequence), is
      kept as a separate value.  Rounding of binary64 arithmetic is not
      modelled.
    - The collaborators the trainer receives (model, loss function,
      optimizer, [Accuracy], [ModelCheckpoint], [get_weights]) are not
      defined in this file of the repository; they are bundled in the record
      [Collaborators] and every definition is parametric in it.  They are
      total functions: an exception raised inside a collaborator would leave
      the run as the exceptions of the trainer itself do, and is not
      modelled.
    - Objects that the trainer mutates live in a [World]; methods are
      computations in a state-and-exception monad over it.  The world also
      keeps the chronological history of calls made on the metric
      accumulators and on the checkpoint policy, of the mode switches of the
      model and of the lines printed on standard output. *)

From Stdlib Require Import ZArith QArith Qcanon Lia.
From stdpp Require Import base gmap strings list.

Local Open Scope Z_scope.
Local Set Warnings "-notation-incompatible-prefix".

(** ** Numbers *)

(** A Python [float] / [np.float64] value. *)
Inductive pyfloat : Type :=
  | Finite (q : Qc)
  | NaN.

Definition Qc_of_Z (z : Z) : Qc := Q2Qc (inject_Z z).

Definition Qc_is_zero (q : Qc) : bool := Z.eqb (Qnum (this q)) 0.

(** [int(q)]: truncation towards zero. *)
Definition py_int (q : Qc) : Z := Z.quot (Qnum (this q)) (Zpos (Qden (this q))).

Definition Qc_sum (l : list Qc) : Qc := foldr Qcplus (Qc_of_Z 0) l.

(** The finite values of a sequence, [None] as soon as one entry is [nan]. *)
Fixpoint finite_values (l : list pyfloat) : option (list Qc) :=
  match l with
  | [] => Some []
  | Finite q :: l' => match finite_values l' with
                      | Some qs => Some (q :: qs)
                      | None => None
                      end
  | NaN :: _ => None
  end.

Definition arithmetic_mean (qs : list Qc) : Qc :=
  (Qc_sum qs / Qc_of_Z (Z.of_nat (length qs)))%Qc.

(** [np.mean] of a Python list of floats: [nan] on the empty list (numpy
    warns and returns [nan]) and as soon as an entry is [nan]. *)
Definition np_mean (l : list pyfloat) : pyfloat :=
  match finite_values l with
  | Some (q :: qs) => Finite (arithmetic_mean (q :: qs))
  | _ => NaN
  end.

(** [mx.mean] of the array of per-example losses. *)
Definition mx_mean (l : list Qc) : pyfloat :=
  match l with
  | [] => NaN
  | _ :: _ => Finite (arithmetic_mean l)
  end.

(** ** Exceptions and results *)

Inductive exn : Type :=
  | ZeroDivisionError
  | TypeError
  | SystemExit.

Inductive result (A : Type) : Type :=
  | Return (a : A)
  | Raise (e : exn).
Arguments Return {A} a.
Arguments Raise {A} e.

(** ** Collaborators *)

Definition loc := nat.

(** Everything the trainer is given or imports.  [model_call m x] is the
    forward pass [self.model(x)], [grad] the gradient that
    [nn.value_and_grad] returns next to the loss, [Accuracy_new] the state of
    a freshly constructed [Accuracy()]. *)
Record Collaborators : Type := {
  Tensor : Type;
  shape0 : Tensor -> Z;
  Model : Type;
  model_call : Model -> Tensor -> Tensor;
  model_train : Model -> Model;
  model_eval : Model -> Model;
  KwVal : Type;
  loss_fn : Tensor -> Tensor -> gmap string KwVal -> list Qc;
  Grads : Type;
  grad : Model -> Tensor -> Tensor -> gmap string KwVal -> Grads;
  Optimizer : Type;
  optimizer_update : Optimizer -> Model -> Grads -> Optimizer * Model;
  learning_rate : Optimizer -> Qc;
  Accuracy : Type;
  Accuracy_new : Accuracy;
  Accuracy_update : Accuracy -> Tensor -> Tensor -> Accuracy;
  Accuracy_compute : Accuracy -> pyfloat;
  Accuracy_reset : Accuracy -> Accuracy;
  Weights : Type;
  get_weights : Model -> Weights;
  ModelCheckpoint : Type;
  ModelCheckpoint_step :
    ModelCheckpoint -> nat -> gmap string pyfloat -> Weights -> ModelCheckpoint;
  patience_over : ModelCheckpoint -> bool;
}.

(** ** Output lines and the call history *)

(** The lines [print] writes, with the values that are formatted into them. *)
Inductive line : Type :=
  | LEpoch (epoch : nat) (max_epochs : Z)
  | LIter (batch_idx : nat) (total : nat) (train_loss : pyfloat)
          (train_throughput : pyfloat) (lr : Qc)
  | LTrainSummary (epoch_time : Qc) (train_loss train_acc train_throughput : pyfloat)
  | LRunningValidation
  | LValSummary (val_loss val_acc val_throughput : pyfloat)
  | LSeparator
  | LEarlyStopping (epoch : nat).

Section Trainer.

Context (E : Collaborators).

Inductive event : Type :=
  | EvModelTrain
  | EvModelEval
  | EvUpdate (l : loc) (logits target : Tensor E)
  | EvCompute (l : loc)
  | EvReset (l : loc)
  | EvStep (epoch : nat) (metrics : gmap string pyfloat) (weights : Weights E)
  | EvPatienceOver (epoch : nat) (flag : bool)
  | EvPrint (ln : line).

(** ** The world *)

(** [model], [optimizer] and [model_checkpoint] are the objects the
    trainer's attributes of the same name refer to ([model_checkpoint] is
    [None] when no policy was configured); [heap] holds the [Accuracy]
    objects; [ticks] is the sequence of values [time.perf_counter()] returns
    and [clock] the number of readings made so far. *)
Record World : Type := mkWorld {
  model : Model E;
  optimizer : Optimizer E;
  model_checkpoint : option (ModelCheckpoint E);
  heap : gmap loc (Accuracy E);
  ticks : nat -> Qc;
  clock : nat;
  trace : list event;
}.

Definition set_model (m : Model E) (w : World) : World :=
  mkWorld m (optimizer w) (model_checkpoint w) (heap w) (ticks w) (clock w) (trace w).
Definition set_optimizer (o : Optimizer E) (w : World) : World :=
  mkWorld (model w) o (model_checkpoint w) (heap w) (ticks w) (clock w) (trace w).
Definition set_model_checkpoint (c : option (ModelCheckpoint E)) (w : World) : World :=
  mkWorld (model w) (optimizer w) c (heap w) (ticks w) (clock w) (trace w).
Definition set_heap (h : gmap loc (Accuracy E)) (w : World) : World :=
  mkWorld (model w) (optimizer w) (model_checkpoint w) h (ticks w) (clock w) (trace w).
Definition set_clock (n : nat) (w : World) : World :=
  mkWorld (model w) (optimizer w) (model_checkpoint w) (heap w) (ticks w) n (trace w).
Definition set_trace (t : list event) (w : World) : World :=
  mkWorld (model w) (optimizer w) (model_checkpoint w) (heap w) (ticks w) (clock w) t.

(** ** The monad *)

Definition M (A : Type) : Type := World -> result A * World.

Definition ret {A} (a : A) : M A := fun w => (Return a, w).

Definition bind {A B} (m : M A) (k : A -> M B) : M B :=
  fun w => match m w with
           | (Return a, w') => k a w'
           | (Raise e, w') => (Raise e, w')
           end.

Definition raise {A} (e : exn) : M A := fun w => (Raise e, w).

Definition gets {A} (f : World -> A) : M A := fun w => (Return (f w), w).

Definition modify (f : World -> World) : M unit := fun w => (Return tt, f w).

Notation "x <- m ;; k" := (bind m (fun x => k))
  (at level 100, m at next level, right associativity).
Notation "' p <- m ;; k" := (bind m (fun x => match x with p => k end))
  (at level 100, p pattern, m at next level, right associativity).
Notation "m ;; k" := (bind m (fun _ => k))
  (at level 100, right associativity).

(** [for x in l: body], threading the local variables the body rebinds. *)
Fixpoint for_each {A S} (l : list A) (body : S -> A -> M S) (s : S) : M S :=
  match l with
  | [] => ret s
  | x :: l' => s' <- body s x ;; for_each l' body s'
  end.

(** [enumerate(l)], counting from [i]. *)
Fixpoint enumerate_from {A} (i : nat) (l : list A) : list (nat * A) :=
  match l with
  | [] => []
  | x :: l' => (i, x) :: enumerate_from (S i) l'
  end.

Definition enumerate {A} (l : list A) : list (nat * A) := enumerate_from 0 l.

(** ** Primitive operations *)

Definition record (ev : event) : M unit :=
  modify (fun w => set_trace (trace w ++ [ev]) w).

Definition print (ln : line) : M unit := record (EvPrint ln).

(** [time.perf_counter()]. *)
Definition perf_counter : M Qc :=
  fun w => (Return (ticks w (clock w)), set_clock (S (clock w)) w).

(** [n / d] with [n] an [int] and [d] a [float]. *)
Definition py_truediv (n : Z) (d : Qc) : M pyfloat :=
  if Qc_is_zero d then raise ZeroDivisionError
  else ret (Finite (Qc_of_Z n / d)%Qc).

(** [a % b] on [int]s; Python's remainder has the sign of the divisor, as
    [Z.modulo] does. *)
Definition py_mod (a b : Z) : M Z :=
  if decide (b = 0) then raise ZeroDivisionError else ret (a `mod` b).

(** [f(..., **kwargs)]: unpacking anything but a mapping is a [TypeError]. *)
Definition unpack_kwargs (kwargs : option (gmap string (KwVal E)))
  : M (gmap string (KwVal E)) :=
  match kwargs with
  | Some kw => ret kw
  | None => raise TypeError
  end.

(** [quit()] raises [SystemExit]. *)
Definition quit {A} : M A := raise SystemExit.

(** The object an [Accuracy] reference points to. *)
Definition deref (w : World) (l : loc) : Accuracy E :=
  default (Accuracy_new E) (heap w !! l).

(** [Accuracy()]: a new object at an unused location. *)
Definition new_Accuracy : M loc :=
  fun w => let l := fresh (dom (heap w)) in
           (Return l, set_heap (<[l := Accuracy_new E]> (heap w)) w).

Definition call_update (l : loc) (logits target : Tensor E) : M unit :=
  modify (fun w =>
    set_heap (<[l := Accuracy_update E (deref w l) logits target]> (heap w)) w) ;;
  record (EvUpdate l logits target).

Definition call_compute (l : loc) : M pyfloat :=
  record (EvCompute l) ;;
  gets (fun w => Accuracy_compute E (deref w l)).

Definition call_reset (l : loc) : M unit :=
  modify (fun w => set_heap (<[l := Accuracy_reset E (deref w l)]> (heap w)) w) ;;
  record (EvReset l).

(** [self.model_checkpoint.step(epoch=..., metrics=..., weights=get_weights(self.model))]. *)
Definition call_step (c : ModelCheckpoint E) (epoch : nat)
    (metrics : gmap string pyfloat) : M unit :=
  weights <- gets (fun w => get_weights E (model w)) ;;
  modify (set_model_checkpoint (Some (ModelCheckpoint_step E c epoch metrics weights))) ;;
  record (EvStep epoch metrics weights).

(** Reading [self.model_checkpoint.patience_over]. *)
Definition read_patience_over (epoch : nat) : M bool :=
  mc <- gets model_checkpoint ;;
  let flag := match mc with Some c => patience_over E c | None => false end in
  record (EvPatienceOver epoch flag) ;;
  ret flag.

(** ** The trainer *)

(** The arguments of [Trainer(...)] that are plain values.  [model],
    [optimizer] and [model_checkpoint] are objects of the world. *)
Record Config : Type := mkConfig {
  cfg_loss_fn_args : option (gmap string (KwVal E));
  cfg_train_loader : list (Tensor E * Tensor E);
  cfg_val_loader : option (list (Tensor E * Tensor E));
  cfg_log_every : Qc;
  cfg_max_epochs : Z;
}.

(** The attributes of a [Trainer]; [train_acc] and [val_acc] are references
    to [Accuracy] objects. *)
Record Trainer : Type := mkTrainer {
  loss_fn_args : option (gmap string (KwVal E));
  train_loader : list (Tensor E * Tensor E);
  val_loader : option (list (Tensor E * Tensor E));
  log_every : Z;
  max_epochs : Z;
  train_acc : loc;
  val_acc : loc;
}.

(** [mx.set_default_device(device)] and the list [self.state], which is only
    passed to [mx.eval], have no counterpart here. *)
Definition __init__ (cfg : Config) : M Trainer :=
  let log_every :=
    py_int (cfg_log_every cfg * Qc_of_Z (Z.of_nat (length (cfg_train_loader cfg))))%Qc in
  train_acc <- new_Accuracy ;;
  val_acc <- new_Accuracy ;;
  ret (mkTrainer (cfg_loss_fn_args cfg) (cfg_train_loader cfg) (cfg_val_loader cfg)
         log_every (cfg_max_epochs cfg) train_acc val_acc).

Definition _train_step (self : Trainer) (x target : Tensor E) : M pyfloat :=
  logits <- gets (fun w => model_call E (model w) x) ;;
  kwargs <- unpack_kwargs (loss_fn_args self) ;;
  let loss := mx_mean (loss_fn E logits target kwargs) in
  call_update (train_acc self) logits target ;;
  ret loss.

Definition _val_step (self : Trainer) (x target : Tensor E) : M pyfloat :=
  logits <- gets (fun w => model_call E (model w) x) ;;
  kwargs <- unpack_kwargs (loss_fn_args self) ;;
  let loss := mx_mean (loss_fn E logits target kwargs) in
  call_update (val_acc self) logits target ;;
  ret loss.

(** [nn.value_and_grad(self.model, self._train_step)(x, target)]: one call
    of [_train_step], and the gradient of its value in the parameters the
    model had at the call. *)
Definition value_and_grad_train_step (self : Trainer) (x target : Tensor E)
  : M (pyfloat * Grads E) :=
  m <- gets model ;;
  loss <- _train_step self x target ;;
  ret (loss, grad E m x target (default ∅ (loss_fn_args self))).

(** [self.optimizer.update(self.model, grads)]; [mx.eval(self.state)] only
    forces the pending computation and changes no value. *)
Definition call_optimizer_update (grads : Grads E) : M unit :=
  modify (fun w =>
    let '(o, m) := optimizer_update E (optimizer w) (model w) grads in
    set_model m (set_optimizer o w)).

Definition train_batch (self : Trainer)
    (acc : list pyfloat * list pyfloat) (item : nat * (Tensor E * Tensor E))
  : M (list pyfloat * list pyfloat) :=
  let '(epoch_loss, throughput) := acc in
  let '(batch_idx, (x, target)) := item in
  tic <- perf_counter ;;
  '(loss, grads) <- value_and_grad_train_step self x target ;;
  call_optimizer_update grads ;;
  toc <- perf_counter ;;
  let epoch_loss := epoch_loss ++ [loss] in
  thr <- py_truediv (shape0 E x) (toc - tic)%Qc ;;
  let throughput := throughput ++ [thr] in
  r <- py_mod (Z.of_nat batch_idx) (log_every self) ;;
  (if decide (r = 0) then
     lr <- gets (fun w => learning_rate E (optimizer w)) ;;
     print (LIter batch_idx (length (train_loader self)) loss thr lr)
   else ret tt) ;;
  ret (epoch_loss, throughput).

Definition train_epoch (self : Trainer) : M (pyfloat * pyfloat * pyfloat) :=
  modify (fun w => set_model (model_train E (model w)) w) ;;
  record EvModelTrain ;;
  '(epoch_loss, throughput) <-
    for_each (enumerate (train_loader self)) (train_batch self) ([], []) ;;
  epoch_acc <- call_compute (train_acc self) ;;
  call_reset (train_acc self) ;;
  ret (np_mean epoch_loss, epoch_acc, np_mean throughput).

Definition val_batch (self : Trainer)
    (acc : list pyfloat * list pyfloat) (item : nat * (Tensor E * Tensor E))
  : M (list pyfloat * list pyfloat) :=
  let '(epoch_loss, throughput) := acc in
  let '(_, (x, target)) := item in
  tic <- perf_counter ;;
  loss <- _val_step self x target ;;
  toc <- perf_counter ;;
  let epoch_loss := epoch_loss ++ [loss] in
  thr <- py_truediv (shape0 E x) (toc - tic)%Qc ;;
  let throughput := throughput ++ [thr] in
  ret (epoch_loss, throughput).

(** [val_epoch] is only called when [self.val_loader] is not [None]; the
    loader is passed along.  The [tqdm] bar writes to standard error and is
    not part of the history. *)
Definition val_epoch (self : Trainer) (loader : list (Tensor E * Tensor E))
  : M (pyfloat * pyfloat * pyfloat) :=
  modify (fun w => set_model (model_eval E (model w)) w) ;;
  record EvModelEval ;;
  '(epoch_loss, throughput) <-
    for_each (enumerate loader) (val_batch self) ([], []) ;;
  epoch_acc <- call_compute (val_acc self) ;;
  call_reset (val_acc self) ;;
  ret (np_mean epoch_loss, epoch_acc, np_mean throughput).

(** The checkpoint call and the early-stopping test that follows it, as
    written in both branches of [train].  The test [if self.model_checkpoint:]
    holds for every policy object and fails for [None]. *)
Definition checkpoint_and_stop (epoch : nat) (metrics : gmap string pyfloat) : M unit :=
  mc <- gets model_checkpoint ;;
  match mc with
  | Some c =>
      call_step c epoch metrics ;;
      over <- read_patience_over epoch ;;
      if over : bool then
        print LSeparator ;;
        print (LEarlyStopping epoch) ;;
        quit
      else ret tt
  | None => ret tt
  end.

(** The body of the loop of [train]. *)
Definition train_body (self : Trainer) (_ : unit) (epoch : nat) : M unit :=
  print (LEpoch epoch (max_epochs self)) ;;
  tic <- perf_counter ;;
  '(train_loss, train_acc, train_throughput) <- train_epoch self ;;
  toc <- perf_counter ;;
  print (LTrainSummary (toc - tic)%Qc train_loss train_acc train_throughput) ;;
  match val_loader self with
  | Some loader =>
      print LRunningValidation ;;
      '(val_loss, val_acc, val_throughput) <- val_epoch self loader ;;
      print (LValSummary val_loss val_acc val_throughput) ;;
      checkpoint_and_stop epoch
        (<["val_acc" := val_acc]> (<["val_loss" := val_loss]> ∅))
  | None =>
      checkpoint_and_stop epoch
        (<["train_acc" := train_acc]> (<["train_loss" := train_loss]> ∅))
  end ;;
  print LSeparator.

(** [range(n)]. *)
Definition range (n : Z) : list nat := seq 0 (Z.to_nat n).

Definition train (self : Trainer) : M unit :=
  for_each (range (max_epochs self)) (train_body self) tt.

End Trainer.

Arguments mkWorld {E}.
Arguments mkConfig {E}.
Arguments mkTrainer {E}.
Arguments EvModelTrain {E}.
Arguments EvModelEval {E}.
Arguments EvUpdate {E}.
Arguments EvCompute {E}.
Arguments EvReset {E}.
Arguments EvStep {E}.
Arguments EvPatienceOver {E}.
Arguments EvPrint {E}.
Arguments ret {E A}.
Arguments bind {E A B}.
Arguments raise {E A}.
Arguments quit {E A}.
Arguments gets {E A}.
Arguments modify {E}.
Arguments for_each {E A S}.
Arguments record {E}.
Arguments print {E}.
Arguments perf_counter {E}.
Arguments py_truediv {E}.
Arguments py_mod {E}.
Arguments unpack_kwargs {E}.
Arguments deref {E}.
Arguments new_Accuracy {E}.
Arguments call_update {E}.
Arguments call_compute {E}.
Arguments call_reset {E}.
Arguments call_step {E}.
Arguments read_patience_over {E}.
Arguments call_optimizer_update {E}.
Arguments value_and_grad_train_step {E}.
Arguments __init__ {E}.
Arguments _train_step {E}.
Arguments _val_step {E}.
Arguments train_batch {E}.
Arguments train_epoch {E}.
Arguments val_batch {E}.
Arguments val_epoch {E}.
Arguments checkpoint_and_stop {E}.
Arguments train_body {E}.
Arguments train {E}.
Arguments model {E}.
Arguments optimizer {E}.
Arguments model_checkpoint {E}.
Arguments heap {E}.
Arguments ticks {E}.
Arguments clock {E}.
Arguments trace {E}.
Arguments set_model {E}.
Arguments set_optimizer {E}.
Arguments set_model_checkpoint {E}.
Arguments set_heap {E}.
Arguments set_clock {E}.
Arguments set_trace {E}.
Arguments loss_fn_args {E}.
Arguments train_loader {E}.
Arguments val_loader {E}.
Arguments log_every {E}.
Arguments max_epochs {E}.
Arguments train_acc {E}.
Arguments val_acc {E}.
Arguments cfg_loss_fn_args {E}.
Arguments cfg_train_loader {E}.
Arguments cfg_val_loader {E}.
Arguments cfg_log_every {E}.
Arguments cfg_max_epochs {E}.

Notation "x <- m ;; k" := (bind m (fun x => k))
  (at level 100, m at next level, right associativity).
Notation "m ;; k" := (bind m (fun _ => k))
  (at level 100, right associativity).

(** ** A concrete set of collaborators

    A one-parameter model that adds its parameter to every input, a squared
    error loss scaled by the optional keyword ["weight"], an optimizer that
    leaves the parameter alone, a counting accuracy and a checkpoint policy
    that watches the loss with a given patience.  It is used to run the
    trainer on concrete inputs. *)
Module Toy.

Record policy : Type := mkPolicy {
  patience : nat;
  best : option Qc;
  bad_epochs : nat;
}.

Definition monitored (metrics : gmap string pyfloat) : option Qc :=
  match metrics !! "val_loss" with
  | Some (Finite q) => Some q
  | Some NaN => None
  | None => match metrics !! "train_loss" with
            | Some (Finite q) => Some q
            | _ => None
            end
  end.

Definition improves (v : option Qc) (b : option Qc) : bool :=
  match v, b with
  | Some q, Some q' => bool_decide (q < q')%Qc
  | Some _, None => true
  | None, _ => false
  end.

Definition policy_step (c : policy) (epoch : nat)
    (metrics : gmap string pyfloat) (weights : Z) : policy :=
  if improves (monitored metrics) (best c)
  then mkPolicy (patience c) (monitored metrics) 0
  else mkPolicy (patience c) (best c) (S (bad_epochs c)).

Definition policy_over (c : policy) : bool :=
  bool_decide (patience c ≤ bad_epochs c)%nat.

Definition hits (logits target : list Z) : nat :=
  length (filter (fun p => p.1 = p.2) (zip logits target)).

Definition collaborators : Collaborators := {|
  Tensor := list Z;
  shape0 := fun x => Z.of_nat (length x);
  Model := Z * bool;
  model_call := fun m x => map (Z.add m.1) x;
  model_train := fun m => (m.1, true);
  model_eval := fun m => (m.1, false);
  KwVal := Z;
  loss_fn := fun logits target kw =>
    zip_with (fun l t => Qc_of_Z (default 1 (kw !! "weight") * (l - t) * (l - t)))
             logits target;
  Grads := unit;
  grad := fun _ _ _ _ => tt;
  Optimizer := Qc;
  optimizer_update := fun o m _ => (o, m);
  learning_rate := fun o => o;
  Accuracy := nat * nat;
  Accuracy_new := (0, 0)%nat;
  Accuracy_update := fun s logits target =>
    (s.1 + hits logits target, s.2 + length target)%nat;
  Accuracy_compute := fun s =>
    match s.2 with
    | O => NaN
    | S _ => Finite (Qc_of_Z (Z.of_nat s.1) / Qc_of_Z (Z.of_nat s.2))%Qc
    end;
  Accuracy_reset := fun _ => (0, 0)%nat;
  Weights := Z;
  get_weights := fun m => m.1;
  ModelCheckpoint := policy;
  ModelCheckpoint_step := policy_step;
  patience_over := policy_over;
|}.

(** A clock that advances by one second between two readings. *)
Definition seconds (n : nat) : Qc := Qc_of_Z (Z.of_nat n).

(** The world before the trainer is constructed. *)
Definition world0 (c : option policy) (clk : nat -> Qc) : World collaborators :=
  mkWorld ((0, false) : Model collaborators) (Qc_of_Z 1 : Optimizer collaborators)
          c ∅ clk 0%nat [].

(** Batches of four examples on which the model is off by one. *)
Definition batch4 : list Z * list Z := ([0; 0; 0; 0], [1; 1; 1; 1]).

Definition config (args : option (gmap string Z)) (n : nat)
    (val : option (list (list Z * list Z))) (f : Qc) (epochs : Z)
  : Config collaborators :=
  mkConfig (E := collaborators) args (replicate n batch4) val f epochs.


(** The trainer [__init__] makes of [config args n val f epochs], with
    logging interval [k], and the world it leaves. *)
Definition trainer (args : option (gmap string Z)) (n : nat)
    (val : option (list (list Z * list Z))) (k : Z) (epochs : Z)
  : Trainer collaborators :=
  mkTrainer (E := collaborators) args (replicate n batch4) val k epochs 0%nat 1%nat.

Definition world1 (c : option policy) (clk : nat -> Qc) : World collaborators :=
  mkWorld ((0, false) : Model collaborators) (Qc_of_Z 1 : Optimizer collaborators)
          c (<[1%nat := (0, 0)%nat]> (<[0%nat := (0, 0)%nat]> ∅)) clk 0%nat [].


Definition tenth : Qc := (Qc_of_Z 1 / Qc_of_Z 10)%Qc.

(** A run that stops early: one training and one validation batch, a loss
    that never improves, a policy with patience 1, five epochs scheduled. *)
Definition early_trainer : Trainer collaborators :=
  trainer (Some ∅) 1 (Some [batch4]) 1 5.

Definition early_world : World collaborators :=
  world1 (Some (mkPolicy 1 None 0)) seconds.

End Toy.

(** ** Vocabulary of the properties *)

Section Vocabulary.

Context {E : Collaborators}.

(** The printed progress lines of a history. *)
Definition is_progress_line (ev : event E) : bool :=
  match ev with
  | EvPrint (LIter _ _ _ _ _) => true
  | _ => false
  end.

Definition progress_lines (tr : list (event E)) : nat :=
  length (List.filter is_progress_line tr).

(** The number of indices [j] with [i <= j < i + n] that the trigger
    [j % k == 0] selects. *)
Fixpoint multiples (k : Z) (i n : nat) : nat :=
  match n with
  | O => O
  | S n' => if decide (Z.of_nat i `mod` k = 0)
            then S (multiples k (S i) n')
            else multiples k (S i) n'
  end.

(** [ceil(n / k)] for positive [k]. *)
Definition ceil_div (n k : Z) : Z := (n + k - 1) `div` k.

(** The state an accumulator reaches from [s] through the calls that a
    history makes on it. *)
Definition replay_event (l : loc) (s : Accuracy E) (ev : event E) : Accuracy E :=
  match ev with
  | EvUpdate l' logits target =>
      if decide (l' = l) then Accuracy_update E s logits target else s
  | EvReset l' => if decide (l' = l) then Accuracy_reset E s else s
  | _ => s
  end.

Definition replay (l : loc) (tr : list (event E)) (s : Accuracy E) : Accuracy E :=
  fold_left (replay_event l) tr s.

(** The checkpoint calls of a history. *)
Definition step_calls (tr : list (event E)) : list (nat * gmap string pyfloat) :=
  omap (fun ev => match ev with
                  | EvStep epoch metrics _ => Some (epoch, metrics)
                  | _ => None
                  end) tr.

(** Reading the patience flag as true. *)
Definition is_patience_exceeded (ev : event E) : Prop :=
  match ev with
  | EvPatienceOver _ true => True
  | _ => False
  end.

(** Events of the training phase and of the validation phase of a trainer. *)
Definition train_phase_event (self : Trainer E) (ev : event E) : Prop :=
  match ev with
  | EvModelTrain => True
  | EvUpdate l _ _ | EvCompute l | EvReset l => l = train_acc self
  | EvPrint (LIter _ _ _ _ _) => True
  | _ => False
  end.

Definition val_phase_event (self : Trainer E) (ev : event E) : Prop :=
  match ev with
  | EvModelEval => True
  | EvUpdate l _ _ | EvCompute l | EvReset l => l = val_acc self
  | _ => False
  end.

(** What an operation that only appends events satisfying [phi] to the
    history leaves in place: the clock's readings, the checkpoint policy,
    the allocated accumulators, and accumulator states that are exactly what
    the appended calls make of them. *)
Definition frame (phi : event E -> Prop) (w w' : World E) : Prop :=
  ticks w' = ticks w /\
  model_checkpoint w' = model_checkpoint w /\
  (forall l, is_Some (heap w !! l) -> is_Some (heap w' !! l)) /\
  exists new, trace w' = trace w ++ new /\ Forall phi new /\
              forall l, deref w' l = replay l new (deref w l).

(** [m] relates the worlds before and after it by [R] and never exits. *)
Definition safe {A} (R : World E -> World E -> Prop) (m : M E A) : Prop :=
  forall w r w', m w = (r, w') -> R w w' /\ r <> Raise SystemExit.

(** What the batches of a training phase yield, when no step raises: for
    each batch its loss, its throughput, and the predictions and targets
    given to the accumulator.  [m] and [o] are the model and the optimizer
    before the batch, [c] the number of clock readings made before it. *)
Fixpoint per_batch_train (kw : gmap string (KwVal E)) (tk : nat -> Qc)
    (m : Model E) (o : Optimizer E) (c : nat) (items : list (Tensor E * Tensor E))
  : list (pyfloat * pyfloat * (Tensor E * Tensor E)) :=
  match items with
  | [] => []
  | (x, target) :: rest =>
      let logits := model_call E m x in
      let loss := mx_mean (loss_fn E logits target kw) in
      let thr := Finite (Qc_of_Z (shape0 E x) / (tk (S c) - tk c))%Qc in
      let om := optimizer_update E o m (grad E m x target kw) in
      (loss, thr, (logits, target)) :: per_batch_train kw tk om.2 om.1 (S (S c)) rest
  end.

(** The same for a validation phase, where the model does not change. *)
Fixpoint per_batch_val (kw : gmap string (KwVal E)) (tk : nat -> Qc)
    (m : Model E) (c : nat) (items : list (Tensor E * Tensor E))
  : list (pyfloat * pyfloat * (Tensor E * Tensor E)) :=
  match items with
  | [] => []
  | (x, target) :: rest =>
      let logits := model_call E m x in
      let loss := mx_mean (loss_fn E logits target kw) in
      let thr := Finite (Qc_of_Z (shape0 E x) / (tk (S c) - tk c))%Qc in
      (loss, thr, (logits, target)) :: per_batch_val kw tk m (S (S c)) rest
  end.

(** The accumulator after the [update] calls of a phase. *)
Definition updated (s : Accuracy E)
    (vals : list (pyfloat * pyfloat * (Tensor E * Tensor E))) : Accuracy E :=
  fold_left (fun s v => Accuracy_update E s v.2.1 v.2.2) vals s.

(** The clock never returns the same value twice in a row. *)
Definition clock_advances (w : World E) : Prop :=
  forall n, ticks w (S n) <> ticks w n.




(** Events of the batch loops. *)
Definition train_batch_event (self : Trainer E) (ev : event E) : Prop :=
  match ev with
  | EvUpdate l _ _ => l = train_acc self
  | EvPrint (LIter _ _ _ _ _) => True
  | _ => False
  end.

Definition val_batch_event (self : Trainer E) (ev : event E) : Prop :=
  match ev with
  | EvUpdate l _ _ => l = val_acc self
  | _ => False
  end.

(** The [update] calls a history makes on an accumulator. *)
Definition update_calls (l : loc) (tr : list (event E)) : list (Tensor E * Tensor E) :=
  omap (fun ev => match ev with
                  | EvUpdate l' logits target =>
                      if decide (l' = l) then Some (logits, target) else None
                  | _ => None
                  end) tr.


(** The epochs whose banner a history prints. *)
Definition epochs_begun (tr : list (event E)) : list nat :=
  omap (fun ev => match ev with
                  | EvPrint (LEpoch epoch _) => Some epoch
                  | _ => None
                  end) tr.

(** The part of the loop body of [train] that precedes the checkpoint call:
    the banner, the training phase, its summary and, with a validation
    loader, the validation phase and its summary.  Its value is the metrics
    mapping that the branch taken passes to [step]. *)
Definition phases_after_banner (self : Trainer E) : M E (gmap string pyfloat) :=
  tic <- perf_counter ;;
  res <- train_epoch self ;;
  toc <- perf_counter ;;
  print (LTrainSummary (toc - tic)%Qc res.1.1 res.1.2 res.2) ;;
  match val_loader self with
  | Some loader =>
      print LRunningValidation ;;
      vres <- val_epoch self loader ;;
      print (LValSummary vres.1.1 vres.1.2 vres.2) ;;
      ret (<["val_acc" := vres.1.2]> (<["val_loss" := vres.1.1]> ∅))
  | None => ret (<["train_acc" := res.1.2]> (<["train_loss" := res.1.1]> ∅))
  end.

Definition phases (self : Trainer E) (epoch : nat) : M E (gmap string pyfloat) :=
  print (LEpoch epoch (max_epochs self)) ;;
  phases_after_banner self.

(** Events of the phases of one epoch, the banner apart. *)
Definition phases_event (self : Trainer E) (ev : event E) : Prop :=
  match ev with
  | EvModelTrain | EvModelEval => True
  | EvUpdate l _ _ | EvCompute l | EvReset l => l = train_acc self \/ l = val_acc self
  | EvPrint (LIter _ _ _ _ _) | EvPrint (LTrainSummary _ _ _ _)
  | EvPrint LRunningValidation | EvPrint (LValSummary _ _ _) => True
  | _ => False
  end.

(** How the loop body ends once the phases have returned [metrics] in the
    world [w]: the result, the events appended and the checkpoint policy
    left behind. *)
Definition ending (epoch : nat) (metrics : gmap string pyfloat) (w : World E)
  : result unit * list (event E) * option (ModelCheckpoint E) :=
  match model_checkpoint w with
  | None => (Return tt, [EvPrint LSeparator], None)
  | Some c =>
      let weights := get_weights E (model w) in
      let c' := ModelCheckpoint_step E c epoch metrics weights in
      if patience_over E c'
      then (Raise SystemExit,
            [EvStep epoch metrics weights; EvPatienceOver epoch true;
             EvPrint LSeparator; EvPrint (LEarlyStopping epoch)], Some c')
      else (Return tt,
            [EvStep epoch metrics weights; EvPatienceOver epoch false;
             EvPrint LSeparator], Some c')
  end.

(** A history in which the patience flag is never read as true. *)
Definition patient (tr : list (event E)) : Prop :=
  Forall (fun ev => ~ is_patience_exceeded ev) tr.

(** The events of a run, by its result: an exit follows a reading of the
    flag as true, with nothing but the two lines of the early-stopping
    message after it; otherwise the flag was never read as true. *)
Definition halting_shape (r : result unit) (new : list (event E)) : Prop :=
  match r with
  | Raise SystemExit =>
      exists pre k,
        new = pre ++ [EvPatienceOver k true; EvPrint LSeparator; EvPrint (LEarlyStopping k)] /\
        patient pre
  | _ => patient new
  end.

(** The events a call of [method] appends to the history. *)
Definition events_of {A} (method : M E A) (w : World E) : list (event E) :=
  drop (length (trace w)) (trace (method w).2).



(** Two runs of [train], one that stops early and one that does not, that
    give their callers outcome values which differ. *)
Definition outcome_distinguishes : Prop :=
  exists (self1 self2 : Trainer E) (w1 w2 : World E) (o1 o2 : unit),
    Exists is_patience_exceeded (events_of (train self1) w1) /\
    (train self1 w1).1 = Return o1 /\
    patient (events_of (train self2) w2) /\
    (train self2 w2).1 = Return o2 /\
    o1 <> o2.

(** [m] relates the worlds before and after it by [R], whatever its result. *)
Definition keeps {A} (R : World E -> World E -> Prop) (m : M E A) : Prop :=
  forall w r w', m w = (r, w') -> R w w'.

(** The parameters of the model and the state of the optimizer are the
    same in both worlds. *)
Definition same_parameters (w w' : World E) : Prop :=
  model w' = model w /\ optimizer w' = optimizer w.

(** Events that are neither a checkpoint call nor a reading of the
    patience flag. *)
Definition no_policy_event (ev : event E) : Prop :=
  match ev with
  | EvStep _ _ _ | EvPatienceOver _ _ => False
  | _ => True
  end.

(** The accumulator that the [update] calls of a history make of [s]. *)
Definition after_updates (l : loc) (tr : list (event E)) (s : Accuracy E) : Accuracy E :=
  fold_left (fun s c => Accuracy_update E s c.1 c.2) (update_calls l tr) s.

(** The epochs for which a history calls [step]. *)
Definition step_epochs (tr : list (event E)) : list nat := map fst (step_calls tr).

End Vocabulary.

(** * Properties *)

Section Properties.

Context {E : Collaborators}.

Implicit Types (self : Trainer E) (w : World E) (x target : Tensor E).
Implicit Types (phi : event E -> Prop).

(** ** Numbers *)

Lemma Qc_is_zero_spec (q : Qc) : Qc_is_zero q = true <-> q = Qc_of_Z 0.
Proof.
  unfold Qc_is_zero. rewrite Z.eqb_eq. split.
  - intros H. apply Qc_is_canon. unfold Qc_of_Z. simpl.
    unfold Qeq. simpl. rewrite H. reflexivity.
  - intros ->. reflexivity.
Qed.

Lemma Qc_is_zero_false (q : Qc) : q <> Qc_of_Z 0 -> Qc_is_zero q = false.
Proof.
  intros H. destruct (Qc_is_zero q) eqn:Hz; [|reflexivity].
  apply Qc_is_zero_spec in Hz. contradiction.
Qed.

Lemma Qc_sub_zero (a b : Qc) : (a - b)%Qc = Qc_of_Z 0 <-> a = b.
Proof.
  change (Qc_of_Z 0) with 0%Qc. split.
  - intros H. rewrite <- (Qcplus_0_r b), <- H. ring.
  - intros ->. ring.
Qed.

(** ** The monad *)

Ltac world_simpl :=
  cbn [ticks clock model optimizer model_checkpoint heap trace
       set_clock set_model set_optimizer set_model_checkpoint set_heap set_trace
       fst snd] in *.

Lemma bind_Return {A B} (m : M E A) (k : A -> M E B) w a w' :
  m w = (Return a, w') -> bind m k w = k a w'.
Proof. unfold bind. intros ->. reflexivity. Qed.

Lemma bind_Raise {A B} (m : M E A) (k : A -> M E B) w e w' :
  m w = (Raise e, w') -> bind m k w = (Raise e, w').
Proof. unfold bind. intros ->. reflexivity. Qed.

Lemma bind_inv {A B} (m : M E A) (k : A -> M E B) w r w2 :
  bind m k w = (r, w2) ->
  (exists a w1, m w = (Return a, w1) /\ k a w1 = (r, w2)) \/
  (exists e, m w = (Raise e, w2) /\ r = Raise e).
Proof.
  unfold bind. destruct (m w) as [[a|e] w1] eqn:Hm; intros H.
  - left. eauto.
  - right. inversion H; subst. eauto.
Qed.

(** ** The steps *)

(** The training step with a mapping of extra parameters in place. *)
Lemma train_step_run self x target w kw :
  loss_fn_args self = Some kw ->
  _train_step self x target w =
    (Return (mx_mean (loss_fn E (model_call E (model w) x) target kw)),
     set_trace (trace w ++ [EvUpdate (train_acc self) (model_call E (model w) x) target])
       (set_heap (<[train_acc self :=
            Accuracy_update E (deref w (train_acc self)) (model_call E (model w) x) target]>
            (heap w)) w)).
Proof.
  intros Hkw. unfold _train_step, bind, gets, unpack_kwargs, call_update,
    modify, record, ret. rewrite Hkw. reflexivity.
Qed.

Lemma val_step_run self x target w kw :
  loss_fn_args self = Some kw ->
  _val_step self x target w =
    (Return (mx_mean (loss_fn E (model_call E (model w) x) target kw)),
     set_trace (trace w ++ [EvUpdate (val_acc self) (model_call E (model w) x) target])
       (set_heap (<[val_acc self :=
            Accuracy_update E (deref w (val_acc self)) (model_call E (model w) x) target]>
            (heap w)) w)).
Proof.
  intros Hkw. unfold _val_step, bind, gets, unpack_kwargs, call_update,
    modify, record, ret. rewrite Hkw. reflexivity.
Qed.

Lemma train_step_no_args self x target w :
  loss_fn_args self = None -> _train_step self x target w = (Raise TypeError, w).
Proof.
  intros Hkw. unfold _train_step, bind, gets, unpack_kwargs, raise.
  rewrite Hkw. reflexivity.
Qed.

Lemma val_step_no_args self x target w :
  loss_fn_args self = None -> _val_step self x target w = (Raise TypeError, w).
Proof.
  intros Hkw. unfold _val_step, bind, gets, unpack_kwargs, raise.
  rewrite Hkw. reflexivity.
Qed.

(** The attributes [__init__] copies from its arguments. *)
Lemma init_attributes (cfg : Config E) w0 self w1 :
  __init__ cfg w0 = (Return self, w1) ->
  loss_fn_args self = cfg_loss_fn_args cfg /\
  train_loader self = cfg_train_loader cfg /\
  val_loader self = cfg_val_loader cfg /\
  max_epochs self = cfg_max_epochs cfg /\
  log_every self =
    py_int (cfg_log_every cfg * Qc_of_Z (Z.of_nat (length (cfg_train_loader cfg))))%Qc.
Proof.
  unfold __init__, bind, new_Accuracy, ret. intros H. inversion H; subst.
  simpl. repeat split; reflexivity.
Qed.


(** C10. A trainer constructed without the extra loss-function parameters
    fails in every training step and every validation step with a
    [TypeError], raised while the parameters are unpacked: no loss is
    computed, no accumulator is updated, the world is unchanged.  With the
    empty mapping both steps return the mean loss computed without extra
    parameters. *)
Theorem default_loss_fn_args_type_error (cfg : Config E) w0 self w1 x target w :
  __init__ cfg w0 = (Return self, w1) ->
  (cfg_loss_fn_args cfg = None ->
     _train_step self x target w = (Raise TypeError, w) /\
     _val_step self x target w = (Raise TypeError, w)) /\
  (cfg_loss_fn_args cfg = Some ∅ ->
     fst (_train_step self x target w) =
       Return (mx_mean (loss_fn E (model_call E (model w) x) target ∅)) /\
     fst (_val_step self x target w) =
       Return (mx_mean (loss_fn E (model_call E (model w) x) target ∅))).
Proof.
  intros Hinit. destruct (init_attributes _ _ _ _ Hinit) as (Hargs & _).
  split; intros Hcfg; rewrite Hcfg in Hargs.
  - split; [apply train_step_no_args | apply val_step_no_args]; exact Hargs.
  - rewrite (train_step_run _ _ _ _ _ Hargs), (val_step_run _ _ _ _ _ Hargs).
    split; reflexivity.
Qed.

(** ** Frames *)

Lemma replay_app (l : loc) (tr1 tr2 : list (event E)) s :
  replay l (tr1 ++ tr2) s = replay l tr2 (replay l tr1 s).
Proof. unfold replay. apply fold_left_app. Qed.

Lemma frame_intro phi w w' (new : list (event E)) :
  ticks w' = ticks w -> model_checkpoint w' = model_checkpoint w ->
  (forall l, is_Some (heap w !! l) -> is_Some (heap w' !! l)) ->
  trace w' = trace w ++ new -> Forall phi new ->
  (forall l, deref w' l = replay l new (deref w l)) ->
  frame phi w w'.
Proof. intros. split; [|split; [|split]]; eauto. Qed.

Lemma frame_silent phi w w' :
  ticks w' = ticks w -> model_checkpoint w' = model_checkpoint w ->
  trace w' = trace w -> heap w' = heap w -> frame phi w w'.
Proof.
  intros Ht Hc Htr Hh. apply (frame_intro phi w w' []); auto.
  - intros l. rewrite Hh. auto.
  - rewrite app_nil_r. exact Htr.
  - intros l. unfold deref. rewrite Hh. reflexivity.
Qed.

Lemma frame_refl phi w : frame phi w w.
Proof. apply frame_silent; reflexivity. Qed.

Lemma frame_trans phi w1 w2 w3 : frame phi w1 w2 -> frame phi w2 w3 -> frame phi w1 w3.
Proof.
  intros (Ht1 & Hc1 & Ha1 & n1 & Htr1 & Hf1 & Hd1) (Ht2 & Hc2 & Ha2 & n2 & Htr2 & Hf2 & Hd2).
  split; [congruence|]. split; [congruence|]. split; [auto|].
  exists (n1 ++ n2). split; [rewrite Htr2, Htr1, app_assoc; reflexivity|].
  split; [apply Forall_app; auto|].
  intros l. rewrite replay_app, Hd2, Hd1. reflexivity.
Qed.

Lemma frame_weaken (phi psi : event E -> Prop) w w' :
  (forall ev, phi ev -> psi ev) -> frame phi w w' -> frame psi w w'.
Proof.
  intros Himp (Ht & Hc & Ha & n & Htr & Hf & Hd).
  apply (frame_intro psi w w' n); auto. eapply Forall_impl; eauto.
Qed.

Lemma safe_ret {A} phi (a : A) : safe (frame phi) (ret a).
Proof.
  intros w r w' H. inversion H; subst. split; [apply frame_refl | discriminate].
Qed.

Lemma safe_bind {A B} phi (m : M E A) (k : A -> M E B) :
  safe (frame phi) m -> (forall a, safe (frame phi) (k a)) -> safe (frame phi) (bind m k).
Proof.
  intros Hm Hk w r w' H. apply bind_inv in H as [(a & w1 & H1 & H2)|(e & H1 & ->)].
  - destruct (Hm _ _ _ H1) as [F1 _]. destruct (Hk a _ _ _ H2) as [F2 Hr].
    split; [eapply frame_trans; eauto | exact Hr].
  - destruct (Hm _ _ _ H1) as [F1 Hr]. split; [exact F1 | congruence].
Qed.

Lemma safe_for_each {A St} phi (l : list A) (body : St -> A -> M E St) (st : St) :
  (forall st a, safe (frame phi) (body st a)) -> safe (frame phi) (for_each l body st).
Proof.
  intros Hb. revert st. induction l as [|a l IH]; intros st; simpl.
  - apply safe_ret.
  - apply safe_bind; [apply Hb | intros st'; apply IH].
Qed.

Lemma safe_gets {A} phi (f : World E -> A) : safe (frame phi) (gets f).
Proof.
  intros w r w' H. inversion H; subst. split; [apply frame_refl | discriminate].
Qed.

Lemma safe_raise {A} phi (e : exn) : e <> SystemExit -> safe (frame phi) (raise (A := A) e).
Proof.
  intros He w r w' H. inversion H; subst. split; [apply frame_refl | congruence].
Qed.

Lemma safe_perf_counter phi : safe (frame phi) perf_counter.
Proof.
  intros w r w' H. inversion H; subst. split; [|discriminate].
  apply frame_silent; reflexivity.
Qed.

Lemma safe_set_model phi (f : Model E -> Model E) :
  safe (frame phi) (modify (fun w => set_model (f (model w)) w)).
Proof.
  intros w r w' H. inversion H; subst. split; [|discriminate].
  apply frame_silent; reflexivity.
Qed.

Lemma safe_optimizer_update phi (g : Grads E) : safe (frame phi) (call_optimizer_update g).
Proof.
  intros w r w' H. unfold call_optimizer_update, modify in H.
  destruct (optimizer_update E (optimizer w) (model w) g) as [o m].
  inversion H; subst. split; [|discriminate].
  apply frame_silent; reflexivity.
Qed.

(** Recording an event that is no call on an accumulator. *)
Lemma safe_record (phi : event E -> Prop) (ev : event E) :
  phi ev -> (forall l s, replay_event l s ev = s) -> safe (frame phi) (record ev).
Proof.
  intros Hphi Hrep w r w' H. inversion H; subst. split; [|discriminate].
  apply (frame_intro phi _ _ [ev]); auto.
  intros l. unfold replay. simpl. rewrite Hrep. reflexivity.
Qed.

Lemma safe_py_truediv phi n d : safe (frame phi) (py_truediv n d).
Proof.
  unfold py_truediv. destruct (Qc_is_zero d);
    [apply safe_raise; discriminate | apply safe_ret].
Qed.

Lemma safe_py_mod phi a b : safe (frame phi) (py_mod a b).
Proof.
  unfold py_mod. destruct (decide (b = 0));
    [apply safe_raise; discriminate | apply safe_ret].
Qed.

Lemma safe_unpack_kwargs phi kw : safe (frame phi) (unpack_kwargs kw).
Proof.
  destruct kw; simpl; [apply safe_ret | apply safe_raise; discriminate].
Qed.

Lemma deref_insert w l l' s :
  deref (set_heap (<[l := s]> (heap w)) w) l' = if decide (l = l') then s else deref w l'.
Proof.
  unfold deref. simpl. destruct (decide (l = l')) as [->|Hne].
  - rewrite lookup_insert_eq. reflexivity.
  - rewrite lookup_insert_ne by exact Hne. reflexivity.
Qed.

Lemma is_Some_insert w l l' (s : Accuracy E) :
  is_Some (heap w !! l') -> is_Some (heap (set_heap (<[l := s]> (heap w)) w) !! l').
Proof.
  intros H. world_simpl. destruct (decide (l = l')) as [->|Hne].
  - rewrite lookup_insert_eq. eauto.
  - rewrite lookup_insert_ne by exact Hne. exact H.
Qed.

Lemma deref_set_trace w (tr : list (event E)) l : deref (set_trace tr w) l = deref w l.
Proof. reflexivity. Qed.

Lemma safe_call_update (phi : event E -> Prop) l logits target :
  phi (EvUpdate l logits target) -> safe (frame phi) (call_update l logits target).
Proof.
  intros Hphi w r w' H. unfold call_update, bind, modify, record in H.
  inversion H; subst. split; [|discriminate].
  apply (frame_intro phi _ _ [EvUpdate l logits target]); auto.
  { intros l'. apply is_Some_insert. }
  intros l'. unfold replay. simpl.
  change (deref (set_heap (<[l:=Accuracy_update E (deref w l) logits target]> (heap w)) w) l'
          = if decide (l = l') then Accuracy_update E (deref w l') logits target
            else deref w l').
  rewrite deref_insert. destruct (decide (l = l')); subst; reflexivity.
Qed.

Lemma safe_call_reset (phi : event E -> Prop) l :
  phi (EvReset l) -> safe (frame phi) (call_reset l).
Proof.
  intros Hphi w r w' H. unfold call_reset, bind, modify, record in H.
  inversion H; subst. split; [|discriminate].
  apply (frame_intro phi _ _ [EvReset l]); auto.
  { intros l'. apply is_Some_insert. }
  intros l'. unfold replay. simpl.
  change (deref (set_heap (<[l:=Accuracy_reset E (deref w l)]> (heap w)) w) l'
          = if decide (l = l') then Accuracy_reset E (deref w l') else deref w l').
  rewrite deref_insert. destruct (decide (l = l')); subst; reflexivity.
Qed.

Lemma safe_call_compute (phi : event E -> Prop) l :
  phi (EvCompute l) -> safe (frame phi) (call_compute l).
Proof.
  intros Hphi. unfold call_compute. apply safe_bind.
  - apply safe_record; [exact Hphi | reflexivity].
  - intros _. apply safe_gets.
Qed.

Lemma safe_print (phi : event E -> Prop) ln : phi (EvPrint ln) -> safe (frame phi) (print ln).
Proof. intros Hphi. apply safe_record; [exact Hphi | reflexivity]. Qed.

Lemma safe_weaken {A} (phi psi : event E -> Prop) (m : M E A) :
  (forall ev, phi ev -> psi ev) -> safe (frame phi) m -> safe (frame psi) m.
Proof.
  intros Himp Hm w r w' H. destruct (Hm _ _ _ H) as [F Hr].
  split; [eapply frame_weaken; eauto | exact Hr].
Qed.

Lemma train_batch_event_phase self ev : train_batch_event self ev -> train_phase_event self ev.
Proof. destruct ev as [| | | | | | |ln]; try destruct ln; cbn; tauto. Qed.

Lemma val_batch_event_phase self ev : val_batch_event self ev -> val_phase_event self ev.
Proof. destruct ev as [| | | | | | |ln]; try destruct ln; cbn; tauto. Qed.

Lemma safe_train_step self x target :
  safe (frame (train_batch_event self)) (_train_step self x target).
Proof.
  unfold _train_step. apply safe_bind; [apply safe_gets|]. intros logits.
  apply safe_bind; [apply safe_unpack_kwargs|]. intros kw.
  apply safe_bind; [apply safe_call_update; reflexivity|]. intros _. apply safe_ret.
Qed.

Lemma safe_val_step self x target :
  safe (frame (val_batch_event self)) (_val_step self x target).
Proof.
  unfold _val_step. apply safe_bind; [apply safe_gets|]. intros logits.
  apply safe_bind; [apply safe_unpack_kwargs|]. intros kw.
  apply safe_bind; [apply safe_call_update; reflexivity|]. intros _. apply safe_ret.
Qed.

Lemma safe_train_batch self acc item :
  safe (frame (train_batch_event self)) (train_batch self acc item).
Proof.
  destruct acc as [ls ts], item as [i [x target]]. unfold train_batch.
  apply safe_bind; [apply safe_perf_counter|]. intros tic.
  apply safe_bind.
  { unfold value_and_grad_train_step. apply safe_bind; [apply safe_gets|]. intros m.
    apply safe_bind; [apply safe_train_step|]. intros loss. apply safe_ret. }
  intros [loss grads].
  apply safe_bind; [apply safe_optimizer_update|]. intros _.
  apply safe_bind; [apply safe_perf_counter|]. intros toc.
  apply safe_bind; [apply safe_py_truediv|]. intros thr.
  apply safe_bind; [apply safe_py_mod|]. intros r.
  apply safe_bind; [|intros _; apply safe_ret].
  destruct (decide (r = 0)); [|apply safe_ret].
  apply safe_bind; [apply safe_gets|]. intros lr. apply safe_print. exact I.
Qed.

Lemma safe_train_epoch self : safe (frame (train_phase_event self)) (train_epoch self).
Proof.
  unfold train_epoch.
  apply safe_bind; [apply safe_set_model|]. intros _.
  apply safe_bind; [apply safe_record; [exact I | reflexivity]|]. intros _.
  apply safe_bind.
  { apply (safe_weaken _ _ _ (train_batch_event_phase self)).
    apply safe_for_each; intros; apply safe_train_batch. }
  intros [ls ts].
  apply safe_bind; [apply safe_call_compute; reflexivity|]. intros acc.
  apply safe_bind; [apply safe_call_reset; reflexivity|]. intros _. apply safe_ret.
Qed.

Lemma safe_val_batch self acc item :
  safe (frame (val_batch_event self)) (val_batch self acc item).
Proof.
  destruct acc as [ls ts], item as [i [x target]]. unfold val_batch.
  apply safe_bind; [apply safe_perf_counter|]. intros tic.
  apply safe_bind; [apply safe_val_step|]. intros loss.
  apply safe_bind; [apply safe_perf_counter|]. intros toc.
  apply safe_bind; [apply safe_py_truediv|]. intros thr. apply safe_ret.
Qed.

Lemma safe_val_epoch self loader :
  safe (frame (val_phase_event self)) (val_epoch self loader).
Proof.
  unfold val_epoch.
  apply safe_bind; [apply safe_set_model|]. intros _.
  apply safe_bind; [apply safe_record; [exact I | reflexivity]|]. intros _.
  apply safe_bind.
  { apply (safe_weaken _ _ _ (val_batch_event_phase self)).
    apply safe_for_each; intros; apply safe_val_batch. }
  intros [ls ts].
  apply safe_bind; [apply safe_call_compute; reflexivity|]. intros acc.
  apply safe_bind; [apply safe_call_reset; reflexivity|]. intros _. apply safe_ret.
Qed.

(** ** One batch and one phase, when nothing raises *)

Lemma progress_lines_app (tr1 tr2 : list (event E)) :
  progress_lines (tr1 ++ tr2) = (progress_lines tr1 + progress_lines tr2)%nat.
Proof. unfold progress_lines. rewrite List.filter_app, length_app. reflexivity. Qed.

Lemma py_truediv_run (n : Z) (d : Qc) w :
  d <> Qc_of_Z 0 -> py_truediv n d w = (Return (Finite (Qc_of_Z n / d)%Qc), w).
Proof. intros Hd. unfold py_truediv. rewrite Qc_is_zero_false by exact Hd. reflexivity. Qed.


Lemma value_and_grad_run self x target w kw :
  loss_fn_args self = Some kw ->
  value_and_grad_train_step self x target w =
    (Return (mx_mean (loss_fn E (model_call E (model w) x) target kw),
             grad E (model w) x target kw),
     set_trace (trace w ++ [EvUpdate (train_acc self) (model_call E (model w) x) target])
       (set_heap (<[train_acc self :=
            Accuracy_update E (deref w (train_acc self)) (model_call E (model w) x) target]>
            (heap w)) w)).
Proof.
  intros Hkw. unfold value_and_grad_train_step.
  rewrite (bind_Return (gets model) _ w (model w) w eq_refl).
  rewrite (bind_Return _ _ _ _ _ (train_step_run _ _ _ _ _ Hkw)).
  rewrite Hkw. reflexivity.
Qed.

Lemma value_and_grad_no_args self x target w :
  loss_fn_args self = None ->
  value_and_grad_train_step self x target w = (Raise TypeError, w).
Proof.
  intros Hkw. unfold value_and_grad_train_step.
  rewrite (bind_Return (gets model) _ w (model w) w eq_refl).
  rewrite (bind_Raise _ _ _ _ _ (train_step_no_args _ _ _ _ Hkw)). reflexivity.
Qed.

Lemma optimizer_update_run (g : Grads E) w :
  call_optimizer_update g w =
    (Return tt,
     set_model (optimizer_update E (optimizer w) (model w) g).2
       (set_optimizer (optimizer_update E (optimizer w) (model w) g).1 w)).
Proof.
  unfold call_optimizer_update, modify.
  destruct (optimizer_update E (optimizer w) (model w) g); reflexivity.
Qed.

Lemma py_mod_run (a b : Z) w : b <> 0 -> py_mod a b w = (Return (a `mod` b), w).
Proof. intros Hb. unfold py_mod. destruct (decide (b = 0)); [contradiction|reflexivity]. Qed.

Lemma py_mod_zero (a : Z) w : py_mod a 0 w = (Raise ZeroDivisionError, w).
Proof. reflexivity. Qed.

Lemma train_batch_run self ls ts i x target w kw :
  loss_fn_args self = Some kw ->
  log_every self <> 0 ->
  ticks w (S (clock w)) <> ticks w (clock w) ->
  let logits := model_call E (model w) x in
  let loss := mx_mean (loss_fn E logits target kw) in
  let thr := Finite (Qc_of_Z (shape0 E x) / (ticks w (S (clock w)) - ticks w (clock w)))%Qc in
  let om := optimizer_update E (optimizer w) (model w) (grad E (model w) x target kw) in
  exists w',
    train_batch self (ls, ts) (i, (x, target)) w = (Return (ls ++ [loss], ts ++ [thr]), w') /\
    ticks w' = ticks w /\ clock w' = S (S (clock w)) /\
    model w' = om.2 /\ optimizer w' = om.1 /\
    deref w' (train_acc self) = Accuracy_update E (deref w (train_acc self)) logits target /\
    progress_lines (trace w') =
      (progress_lines (trace w) +
       if decide ((Z.of_nat i `mod` log_every self)%Z = 0%Z) then 1 else 0)%nat.
Proof.
  intros Hkw Hk Hd logits loss thr om.
  unfold train_batch.
  rewrite (bind_Return perf_counter _ w (ticks w (clock w)) (set_clock (S (clock w)) w) eq_refl).
  rewrite (bind_Return _ _ _ _ _ (value_and_grad_run _ _ _ _ _ Hkw)).
  rewrite (bind_Return _ _ _ _ _ (optimizer_update_run _ _)).
  match goal with |- context [bind perf_counter ?k ?w0] =>
    rewrite (bind_Return perf_counter k w0 (ticks w0 (clock w0))
               (set_clock (S (clock w0)) w0) eq_refl)
  end.
  world_simpl.
  erewrite bind_Return; [|apply py_truediv_run; rewrite Qc_sub_zero; exact Hd].
  erewrite bind_Return; [|apply py_mod_run; exact Hk].
  fold logits. fold loss. fold thr. fold om.
  destruct (decide (Z.of_nat i `mod` log_every self = 0)) as [Hr|Hr].
  - eexists. split; [reflexivity|]. unfold deref. world_simpl.
    repeat (split; [reflexivity|]). split.
    + rewrite lookup_insert_eq. reflexivity.
    + rewrite <- app_assoc, !progress_lines_app. cbn. lia.
  - eexists. split; [reflexivity|]. unfold deref. world_simpl.
    repeat (split; [reflexivity|]). split.
    + rewrite lookup_insert_eq. reflexivity.
    + rewrite !progress_lines_app. cbn. lia.
Qed.

Lemma train_loop_run self kw :
  loss_fn_args self = Some kw ->
  log_every self <> 0 ->
  forall items i ls ts w,
    clock_advances w ->
    let vals := per_batch_train kw (ticks w) (model w) (optimizer w) (clock w) items in
    exists w',
      for_each (enumerate_from i items) (train_batch self) (ls, ts) w =
        (Return (ls ++ map (fun v => v.1.1) vals, ts ++ map (fun v => v.1.2) vals), w') /\
      deref w' (train_acc self) = updated (deref w (train_acc self)) vals /\
      progress_lines (trace w') =
        (progress_lines (trace w) + multiples (log_every self) i (length items))%nat.
Proof.
  intros Hkw Hk items.
  induction items as [|[x target] items IH]; intros i ls ts w Hclk; cbn zeta.
  - exists w. cbn. rewrite !app_nil_r. split; [reflexivity|]. split; [reflexivity|lia].
  - destruct (train_batch_run self ls ts i x target w kw Hkw Hk (Hclk _))
      as (w1 & Hrun & Htk & Hc & Hm & Ho & Hd & Hp).
    assert (Hclk1 : clock_advances w1) by (intros n; rewrite Htk; apply Hclk).
    destruct (IH (S i) (ls ++ [mx_mean (loss_fn E (model_call E (model w) x) target kw)])
                (ts ++ [Finite (Qc_of_Z (shape0 E x) /
                          (ticks w (S (clock w)) - ticks w (clock w)))%Qc]) w1 Hclk1)
      as (w' & Hloop & Hd' & Hp').
    exists w'. cbn [enumerate_from for_each].
    rewrite (bind_Return _ _ _ _ _ Hrun), Hloop.
    rewrite Htk, Hm, Ho, Hc. cbn [per_batch_train map length multiples].
    rewrite <- !app_assoc. split; [reflexivity|]. split.
    + rewrite Hd', Hd, Htk, Hm, Ho, Hc. reflexivity.
    + rewrite Hp', Hp. destruct (decide (Z.of_nat i `mod` log_every self = 0)); lia.
Qed.

(** The training phase, when the extra parameters are a mapping, the
    logging interval is not zero and the clock moves. *)
Lemma train_epoch_run self kw w :
  loss_fn_args self = Some kw ->
  log_every self <> 0 ->
  clock_advances w ->
  let vals := per_batch_train kw (ticks w) (model_train E (model w)) (optimizer w)
                (clock w) (train_loader self) in
  let s := updated (deref w (train_acc self)) vals in
  exists w',
    train_epoch self w =
      (Return (np_mean (map (fun v => v.1.1) vals), Accuracy_compute E s,
               np_mean (map (fun v => v.1.2) vals)), w') /\
    heap w' !! train_acc self = Some (Accuracy_reset E s) /\
    progress_lines (trace w') =
      (progress_lines (trace w) +
       multiples (log_every self) 0 (length (train_loader self)))%nat.
Proof.
  intros Hkw Hk Hclk vals s. unfold train_epoch.
  rewrite (bind_Return (modify (fun w => set_model (model_train E (model w)) w)) _ w tt
             (set_model (model_train E (model w)) w) eq_refl).
  match goal with |- context [bind (record ?ev) ?k ?w0] =>
    rewrite (bind_Return (record ev) k w0 tt (set_trace (trace w0 ++ [ev]) w0) eq_refl)
  end.
  match goal with |- context [bind (for_each _ _ _) _ ?w0] =>
    destruct (train_loop_run self kw Hkw Hk (train_loader self) 0%nat [] [] w0)
      as (w1 & Hloop & Hd & Hp); [exact Hclk|]
  end.
  unfold enumerate. rewrite (bind_Return _ _ _ _ _ Hloop).
  world_simpl. fold vals in Hd, Hp |- *. rewrite !app_nil_l.
  assert (Hs : deref w1 (train_acc self) = s).
  { rewrite Hd. unfold s, deref. reflexivity. }
  unfold call_compute, call_reset, record, modify, gets, bind, ret. world_simpl.
  rewrite !deref_set_trace, Hs.
  eexists. split; [reflexivity|]. world_simpl.
  split; [apply lookup_insert_eq|].
  rewrite !progress_lines_app, Hp, progress_lines_app. cbn. lia.
Qed.

Lemma val_batch_run self ls ts i x target w kw :
  loss_fn_args self = Some kw ->
  ticks w (S (clock w)) <> ticks w (clock w) ->
  let logits := model_call E (model w) x in
  let loss := mx_mean (loss_fn E logits target kw) in
  let thr := Finite (Qc_of_Z (shape0 E x) / (ticks w (S (clock w)) - ticks w (clock w)))%Qc in
  exists w',
    val_batch self (ls, ts) (i, (x, target)) w = (Return (ls ++ [loss], ts ++ [thr]), w') /\
    ticks w' = ticks w /\ clock w' = S (S (clock w)) /\
    model w' = model w /\
    deref w' (val_acc self) = Accuracy_update E (deref w (val_acc self)) logits target.
Proof.
  intros Hkw Hd logits loss thr. unfold val_batch.
  rewrite (bind_Return perf_counter _ w (ticks w (clock w)) (set_clock (S (clock w)) w) eq_refl).
  rewrite (bind_Return _ _ _ _ _ (val_step_run _ _ _ _ _ Hkw)).
  match goal with |- context [bind perf_counter ?k ?w0] =>
    rewrite (bind_Return perf_counter k w0 (ticks w0 (clock w0))
               (set_clock (S (clock w0)) w0) eq_refl)
  end.
  world_simpl.
  erewrite bind_Return; [|apply py_truediv_run; rewrite Qc_sub_zero; exact Hd].
  eexists. split; [reflexivity|]. unfold deref. world_simpl.
  repeat (split; [reflexivity|]). rewrite lookup_insert_eq. reflexivity.
Qed.

Lemma val_loop_run self kw :
  loss_fn_args self = Some kw ->
  forall items i ls ts w,
    clock_advances w ->
    let vals := per_batch_val kw (ticks w) (model w) (clock w) items in
    exists w',
      for_each (enumerate_from i items) (val_batch self) (ls, ts) w =
        (Return (ls ++ map (fun v => v.1.1) vals, ts ++ map (fun v => v.1.2) vals), w') /\
      deref w' (val_acc self) = updated (deref w (val_acc self)) vals.
Proof.
  intros Hkw items.
  induction items as [|[x target] items IH]; intros i ls ts w Hclk; cbn zeta.
  - exists w. cbn. rewrite !app_nil_r. split; reflexivity.
  - destruct (val_batch_run self ls ts i x target w kw Hkw (Hclk _))
      as (w1 & Hrun & Htk & Hc & Hm & Hd).
    assert (Hclk1 : clock_advances w1) by (intros n; rewrite Htk; apply Hclk).
    destruct (IH (S i) (ls ++ [mx_mean (loss_fn E (model_call E (model w) x) target kw)])
                (ts ++ [Finite (Qc_of_Z (shape0 E x) /
                          (ticks w (S (clock w)) - ticks w (clock w)))%Qc]) w1 Hclk1)
      as (w' & Hloop & Hd').
    exists w'. cbn [enumerate_from for_each].
    rewrite (bind_Return _ _ _ _ _ Hrun), Hloop.
    rewrite Htk, Hm, Hc. cbn [per_batch_val map].
    rewrite <- !app_assoc. split; [reflexivity|].
    rewrite Hd', Hd, Htk, Hm, Hc. reflexivity.
Qed.

(** The validation phase under the same conditions. *)
Lemma val_epoch_run self loader kw w :
  loss_fn_args self = Some kw ->
  clock_advances w ->
  let vals := per_batch_val kw (ticks w) (model_eval E (model w)) (clock w) loader in
  let s := updated (deref w (val_acc self)) vals in
  exists w',
    val_epoch self loader w =
      (Return (np_mean (map (fun v => v.1.1) vals), Accuracy_compute E s,
               np_mean (map (fun v => v.1.2) vals)), w') /\
    heap w' !! val_acc self = Some (Accuracy_reset E s).
Proof.
  intros Hkw Hclk vals s. unfold val_epoch.
  rewrite (bind_Return (modify (fun w => set_model (model_eval E (model w)) w)) _ w tt
             (set_model (model_eval E (model w)) w) eq_refl).
  match goal with |- context [bind (record ?ev) ?k ?w0] =>
    rewrite (bind_Return (record ev) k w0 tt (set_trace (trace w0 ++ [ev]) w0) eq_refl)
  end.
  match goal with |- context [bind (for_each _ _ _) _ ?w0] =>
    destruct (val_loop_run self kw Hkw loader 0%nat [] [] w0)
      as (w1 & Hloop & Hd); [exact Hclk|]
  end.
  unfold enumerate. rewrite (bind_Return _ _ _ _ _ Hloop).
  world_simpl. fold vals in Hd |- *. rewrite !app_nil_l.
  assert (Hs : deref w1 (val_acc self) = s).
  { rewrite Hd. unfold s, deref. reflexivity. }
  unfold call_compute, call_reset, record, modify, gets, bind, ret. world_simpl.
  rewrite !deref_set_trace, Hs.
  eexists. split; [reflexivity|]. world_simpl.
  apply lookup_insert_eq.
Qed.

(** ** Counting the progress lines *)

Lemma ceil_div_succ (k i : Z) :
  0 < k -> 0 <= i ->
  ceil_div (i + 1) k = ceil_div i k + (if decide (i `mod` k = 0) then 1 else 0).
Proof.
  intros Hk Hi. unfold ceil_div.
  pose proof (Z.div_mod i k ltac:(lia)) as Hdm.
  pose proof (Z.mod_pos_bound i k Hk) as Hr.
  assert (H1 : (i + 1 + k - 1) `div` k = i `div` k + 1).
  { symmetry. apply (Z.div_unique _ _ _ (i `mod` k)); lia. }
  rewrite H1. destruct (decide (i `mod` k = 0)) as [H0|H0].
  - assert (H2 : (i + k - 1) `div` k = i `div` k).
    { symmetry. apply (Z.div_unique _ _ _ (k - 1)); lia. }
    lia.
  - assert (H2 : (i + k - 1) `div` k = i `div` k + 1).
    { symmetry. apply (Z.div_unique _ _ _ (i `mod` k - 1)); lia. }
    lia.
Qed.

Lemma multiples_ceil_div (k : Z) (n i : nat) :
  0 < k ->
  Z.of_nat (multiples k i n) = ceil_div (Z.of_nat i + Z.of_nat n) k - ceil_div (Z.of_nat i) k.
Proof.
  intros Hk. revert i. induction n as [|n IH]; intros i.
  - cbn [multiples]. replace (Z.of_nat i + Z.of_nat 0) with (Z.of_nat i) by lia. lia.
  - cbn [multiples].
    pose proof (ceil_div_succ k (Z.of_nat i) Hk ltac:(lia)) as Hs.
    specialize (IH (S i)).
    replace (Z.of_nat (S i)) with (Z.of_nat i + 1) in IH by lia.
    replace (Z.of_nat i + Z.of_nat (S n)) with (Z.of_nat i + 1 + Z.of_nat n) by lia.
    destruct (decide (Z.of_nat i `mod` k = 0)); lia.
Qed.

Lemma multiples_from_zero (k : Z) (n : nat) :
  0 < k -> Z.of_nat (multiples k 0 n) = ceil_div (Z.of_nat n) k.
Proof.
  intros Hk. rewrite multiples_ceil_div by exact Hk.
  assert (H0 : ceil_div (Z.of_nat 0) k = 0).
  { unfold ceil_div. apply Z.div_small. lia. }
  rewrite H0. change (Z.of_nat 0) with 0. rewrite Z.add_0_l. lia.
Qed.

(** With a logging interval of at least one batch, a training phase over
    [N] batches prints [ceil(N / max(1, log_every))] progress lines. *)
Lemma progress_lines_count self kw w :
  loss_fn_args self = Some kw ->
  1 <= log_every self ->
  clock_advances w ->
  exists res w' new,
    train_epoch self w = (Return res, w') /\
    trace w' = trace w ++ new /\
    Z.of_nat (progress_lines new) =
      ceil_div (Z.of_nat (length (train_loader self))) (Z.max 1 (log_every self)).
Proof.
  intros Hkw Hk Hclk.
  destruct (train_epoch_run self kw w Hkw ltac:(lia) Hclk) as (w' & Hrun & _ & Hp).
  destruct (safe_train_epoch self _ _ _ Hrun) as [(_ & _ & _ & new & Htr & _) _].
  eexists _, w', new. split; [exact Hrun|]. split; [exact Htr|].
  rewrite Htr, progress_lines_app in Hp.
  rewrite Z.max_r by lia. rewrite <- multiples_from_zero by lia. f_equal. lia.
Qed.

(** One training batch with a logging interval of zero. *)
Lemma train_batch_log_every_zero self ls ts i x target w :
  log_every self = 0 ->
  exists e w',
    train_batch self (ls, ts) (i, (x, target)) w = (Raise e, w') /\
    (e = ZeroDivisionError \/ e = TypeError) /\
    (loss_fn_args self <> None -> e = ZeroDivisionError) /\
    progress_lines (trace w') = progress_lines (trace w).
Proof.
  intros Hk. unfold train_batch.
  rewrite (bind_Return perf_counter _ w (ticks w (clock w)) (set_clock (S (clock w)) w) eq_refl).
  destruct (loss_fn_args self) as [kw|] eqn:Hkw.
  - rewrite (bind_Return _ _ _ _ _ (value_and_grad_run _ _ _ _ _ Hkw)).
    rewrite (bind_Return _ _ _ _ _ (optimizer_update_run _ _)).
    match goal with |- context [bind perf_counter ?k ?w0] =>
      rewrite (bind_Return perf_counter k w0 (ticks w0 (clock w0))
                 (set_clock (S (clock w0)) w0) eq_refl)
    end.
    world_simpl. unfold bind at 1. unfold py_truediv.
    destruct (Qc_is_zero _).
    + eexists _, _. split; [reflexivity|]. world_simpl.
      split; [auto|]. split; [auto|].
      rewrite progress_lines_app. cbn. lia.
    + unfold ret at 1. rewrite Hk. unfold bind at 1. rewrite py_mod_zero.
      eexists _, _. split; [reflexivity|]. world_simpl.
      split; [auto|]. split; [auto|].
      rewrite progress_lines_app. cbn. lia.
  - rewrite (bind_Raise _ _ _ _ _ (value_and_grad_no_args _ _ _ _ Hkw)).
    eexists _, _. split; [reflexivity|]. world_simpl.
    split; [auto|]. split; [congruence|reflexivity].
Qed.

(** C1 (the code departs from it). With a logging interval that truncates
    to zero, [floor(f x N) = 0], the trigger [batch_idx % self.log_every]
    divides by zero: a training phase over a non-empty loader raises on its
    first batch ([ZeroDivisionError], or the [TypeError] of a missing
    parameter mapping before it), prints no progress line and returns
    nothing, where the interval clamped to 1 would give one line per
    batch. *)
Theorem log_every_zero_raises (cfg : Config E) w0 self w1 w :
  __init__ cfg w0 = (Return self, w1) ->
  cfg_train_loader cfg <> [] ->
  py_int (cfg_log_every cfg * Qc_of_Z (Z.of_nat (length (cfg_train_loader cfg))))%Qc = 0 ->
  exists e w',
    train_epoch self w = (Raise e, w') /\
    (e = ZeroDivisionError \/ e = TypeError) /\
    (cfg_loss_fn_args cfg <> None -> e = ZeroDivisionError) /\
    progress_lines (trace w') = progress_lines (trace w).
Proof.
  intros Hinit Hne Hz.
  destruct (init_attributes _ _ _ _ Hinit) as (Hargs & Hloader & _ & _ & Hk).
  rewrite Hz in Hk. rewrite <- Hargs. unfold train_epoch.
  rewrite (bind_Return (modify (fun w => set_model (model_train E (model w)) w)) _ w tt
             (set_model (model_train E (model w)) w) eq_refl).
  match goal with |- context [bind (record ?ev) ?k ?w0] =>
    rewrite (bind_Return (record ev) k w0 tt (set_trace (trace w0 ++ [ev]) w0) eq_refl)
  end.
  rewrite Hloader. destruct (cfg_train_loader cfg) as [|[x target] items]; [contradiction|].
  unfold enumerate. cbn [enumerate_from for_each].
  destruct (train_batch_log_every_zero self [] [] 0%nat x target
              (set_trace (trace w ++ [EvModelTrain]) (set_model (model_train E (model w)) w)) Hk)
    as (e & w' & Hrun & He & Hargs' & Hp).
  exists e, w'. split.
  - world_simpl. erewrite bind_Raise; [reflexivity|].
    erewrite bind_Raise; [reflexivity|exact Hrun].
  - split; [exact He|]. split; [exact Hargs'|].
    rewrite Hp. world_simpl. rewrite progress_lines_app. cbn. lia.
Qed.

(** ** Means *)









(** ** Throughput *)




(** ** The training phase *)




(** ** What a phase that returns has done *)

Lemma replay_no_reset (l : loc) (pre : list (event E)) (s : Accuracy E) :
  Forall (fun ev => match ev with EvReset _ => False | _ => True end) pre ->
  replay l pre s = fold_left (fun s c => Accuracy_update E s c.1 c.2) (update_calls l pre) s.
Proof.
  intros H. revert s. induction H as [|ev pre Hev _ IH]; intros s; [reflexivity|].
  unfold replay, update_calls in *.
  destruct ev; simpl; try contradiction; try apply IH.
  destruct (decide (l0 = l)); simpl; apply IH.
Qed.

Lemma replay_foreign (l : loc) (new : list (event E)) (s : Accuracy E) :
  Forall (fun ev => match ev with
                    | EvUpdate l' _ _ | EvReset l' => l' <> l
                    | _ => True
                    end) new ->
  replay l new s = s.
Proof.
  intros H. revert s. induction H as [|ev new Hev _ IH]; intros s; [reflexivity|].
  unfold replay in *.
  destruct ev; simpl; try apply IH;
    (destruct (decide (l0 = l)); [contradiction|apply IH]).
Qed.




(** ** The loop body of [train] *)

Lemma train_phase_event_phases self ev : train_phase_event self ev -> phases_event self ev.
Proof. destruct ev as [| | | | | | |ln]; try destruct ln; cbn; tauto. Qed.

Lemma val_phase_event_phases self ev : val_phase_event self ev -> phases_event self ev.
Proof. destruct ev as [| | | | | | |ln]; try destruct ln; cbn; tauto. Qed.

Lemma safe_phases_after_banner self :
  safe (frame (phases_event self)) (phases_after_banner self).
Proof.
  unfold phases_after_banner.
  apply safe_bind; [apply safe_perf_counter|]. intros tic.
  apply safe_bind;
    [apply (safe_weaken _ _ _ (train_phase_event_phases self)), safe_train_epoch|].
  intros res.
  apply safe_bind; [apply safe_perf_counter|]. intros toc.
  apply safe_bind; [apply safe_print; exact I|]. intros _.
  destruct (val_loader self) as [loader|]; [|apply safe_ret].
  apply safe_bind; [apply safe_print; exact I|]. intros _.
  apply safe_bind;
    [apply (safe_weaken _ _ _ (val_phase_event_phases self)), safe_val_epoch|].
  intros vres.
  apply safe_bind; [apply safe_print; exact I|]. intros _. apply safe_ret.
Qed.

Lemma phases_run self epoch w :
  phases self epoch w =
  phases_after_banner self
    (set_trace (trace w ++ [EvPrint (LEpoch epoch (max_epochs self))]) w).
Proof. reflexivity. Qed.

(** The loop body is its phases, then the checkpoint call and the
    early-stopping test on the metrics they return, then the separator. *)
Lemma train_body_phases self epoch w :
  train_body self tt epoch w =
  bind (bind (phases self epoch) (checkpoint_and_stop epoch))
       (fun _ => print LSeparator) w.
Proof.
  unfold train_body, phases, phases_after_banner.
  destruct (val_loader self) as [loader|]; unfold bind, ret;
    repeat (cbv beta iota; cbn [fst snd]; try reflexivity;
            match goal with
            | |- context [match ?t with Return _ => _ | Raise _ => _ end] =>
                lazymatch t with
                | context [match _ with _ => _ end] => fail
                | _ => destruct t
                end
            | |- context [match ?t with (_, _) => _ end] =>
                lazymatch t with
                | context [match _ with _ => _ end] => fail
                | _ => destruct t
                end
            end).
Qed.


Lemma phases_safe self epoch w r w1 :
  phases self epoch w = (r, w1) ->
  r <> Raise SystemExit /\
  ticks w1 = ticks w /\ model_checkpoint w1 = model_checkpoint w /\
  (forall l, is_Some (heap w !! l) -> is_Some (heap w1 !! l)) /\
  exists rest,
    trace w1 = trace w ++ EvPrint (LEpoch epoch (max_epochs self)) :: rest /\
    Forall (phases_event self) rest.
Proof.
  rewrite phases_run. intros H.
  destruct (safe_phases_after_banner self _ _ _ H) as [(Ht & Hc & Ha & rest & Htr & Hf & _) Hr].
  world_simpl. split; [exact Hr|]. split; [exact Ht|]. split; [exact Hc|].
  split; [exact Ha|]. exists rest. split; [|exact Hf].
  rewrite Htr, <- app_assoc. reflexivity.
Qed.

Lemma body_phases_raise self epoch w e w1 :
  phases self epoch w = (Raise e, w1) ->
  train_body self tt epoch w = (Raise e, w1).
Proof.
  intros H. rewrite train_body_phases. unfold bind at 1 2. rewrite H. reflexivity.
Qed.

Lemma body_after_phases self epoch w metrics w1 :
  phases self epoch w = (Return metrics, w1) ->
  exists w',
    train_body self tt epoch w = ((ending epoch metrics w1).1.1, w') /\
    trace w' = trace w1 ++ (ending epoch metrics w1).1.2 /\
    model_checkpoint w' = (ending epoch metrics w1).2 /\
    heap w' = heap w1 /\ ticks w' = ticks w1.
Proof.
  intros H. rewrite train_body_phases. unfold bind at 1 2. rewrite H.
  unfold checkpoint_and_stop, ending.
  rewrite (bind_Return (gets model_checkpoint) _ w1 (model_checkpoint w1) w1 eq_refl).
  destruct (model_checkpoint w1) as [c|] eqn:Hc.
  - unfold call_step, read_patience_over, print, quit, record, modify, gets, raise, bind, ret.
    world_simpl.
    destruct (patience_over E (ModelCheckpoint_step E c epoch metrics (get_weights E (model w1))));
      eexists; (split; [reflexivity|]); world_simpl; rewrite <- ?app_assoc;
      repeat split; reflexivity.
  - unfold print, record, modify, ret. eexists. split; [reflexivity|].
    world_simpl. rewrite Hc. repeat split; reflexivity.
Qed.

(** ** The checkpoint call *)

Lemma step_calls_app (tr1 tr2 : list (event E)) :
  step_calls (tr1 ++ tr2) = step_calls tr1 ++ step_calls tr2.
Proof. unfold step_calls. apply omap_app. Qed.

Lemma step_calls_phases self (rest : list (event E)) :
  Forall (phases_event self) rest -> step_calls rest = [].
Proof.
  induction 1 as [|ev rest Hev _ IH]; [reflexivity|].
  unfold step_calls in *. destruct ev; simpl; try contradiction; exact IH.
Qed.




(** ** Early stopping *)

Lemma patient_app (tr1 tr2 : list (event E)) :
  patient tr1 -> patient tr2 -> patient (tr1 ++ tr2).
Proof. unfold patient. intros. apply Forall_app; auto. Qed.

Lemma patient_phases self (rest : list (event E)) :
  Forall (phases_event self) rest -> patient rest.
Proof.
  unfold patient. intros H. eapply Forall_impl; [exact H|]. intros ev Hev.
  destruct ev; cbn in *; tauto.
Qed.

Lemma epochs_begun_app (tr1 tr2 : list (event E)) :
  epochs_begun (tr1 ++ tr2) = epochs_begun tr1 ++ epochs_begun tr2.
Proof. unfold epochs_begun. apply omap_app. Qed.

Lemma epochs_begun_phases self (rest : list (event E)) :
  Forall (phases_event self) rest -> epochs_begun rest = [].
Proof.
  induction 1 as [|ev rest Hev _ IH]; [reflexivity|].
  unfold epochs_begun in *.
  destruct ev as [| | | | | | |ln]; try destruct ln; simpl; try contradiction; exact IH.
Qed.

Lemma halting_shape_prepend (r : result unit) (tr1 tr2 : list (event E)) :
  patient tr1 -> halting_shape r tr2 -> halting_shape r (tr1 ++ tr2).
Proof.
  intros H1 H2. destruct r as [[]|[]]; cbn in *; try (apply patient_app; assumption).
  destruct H2 as (pre & k & -> & Hpre). exists (tr1 ++ pre), k.
  split; [rewrite app_assoc; reflexivity | apply patient_app; assumption].
Qed.

(** The events of one execution of the loop body. *)
Lemma body_shape self epoch w r w' :
  train_body self tt epoch w = (r, w') ->
  exists new,
    trace w' = trace w ++ new /\
    halting_shape r new /\
    (r = Return tt -> epochs_begun new = [epoch]).
Proof.
  intros Hbody. destruct (phases self epoch w) as [[metrics|e] w1] eqn:Hph.
  - destruct (phases_safe _ _ _ _ _ Hph) as (_ & _ & _ & _ & rest & Htr1 & Hrest).
    destruct (body_after_phases _ _ _ _ _ Hph) as (w2 & Hbody2 & Htr2 & _).
    rewrite Hbody in Hbody2. inversion Hbody2; subst r w2; clear Hbody2.
    eexists. split; [rewrite Htr2, Htr1, <- app_assoc; reflexivity|].
    assert (Hp : patient (EvPrint (LEpoch epoch (max_epochs self)) :: rest)).
    { constructor; [cbn; tauto | apply (patient_phases _ _ Hrest)]. }
    assert (Hb : epochs_begun (EvPrint (LEpoch epoch (max_epochs self)) :: rest) = [epoch]).
    { change (EvPrint (LEpoch epoch (max_epochs self)) :: rest)
        with ([EvPrint (LEpoch epoch (max_epochs self))] ++ rest).
      rewrite epochs_begun_app, (epochs_begun_phases _ _ Hrest). reflexivity. }
    unfold ending. destruct (model_checkpoint w1) as [c|].
    + destruct (patience_over E _); cbn [fst snd]; (split; [|intros Hr]).
      * apply halting_shape_prepend; [exact Hp|].
        exists [EvStep epoch metrics (get_weights E (model w1))], epoch.
        split; [reflexivity|]. repeat constructor; cbn; tauto.
      * discriminate.
      * apply halting_shape_prepend; [exact Hp|]. cbn. repeat constructor; cbn; tauto.
      * rewrite epochs_begun_app, Hb. reflexivity.
    + cbn [fst snd]. split; [|intros Hr].
      * apply halting_shape_prepend; [exact Hp|]. cbn. repeat constructor; cbn; tauto.
      * rewrite epochs_begun_app, Hb. reflexivity.
  - destruct (phases_safe _ _ _ _ _ Hph) as (Hne & _ & _ & _ & rest & Htr1 & Hrest).
    rewrite (body_phases_raise _ _ _ _ _ Hph) in Hbody. inversion Hbody; subst.
    eexists. split; [exact Htr1|]. split; [|discriminate].
    assert (Hp : patient (EvPrint (LEpoch epoch (max_epochs self)) :: rest)).
    { constructor; [cbn; tauto | apply (patient_phases _ _ Hrest)]. }
    destruct e; try exact Hp. exfalso. apply Hne. reflexivity.
Qed.

(** The events of a run of the loop over the epochs [es]. *)
Lemma loop_shape self (es : list nat) w r w' :
  for_each es (train_body self) tt w = (r, w') ->
  exists new,
    trace w' = trace w ++ new /\
    halting_shape r new /\
    (r = Return tt -> epochs_begun new = es).
Proof.
  revert w. induction es as [|epoch es IH]; intros w H.
  - inversion H; subst. exists []. rewrite app_nil_r.
    split; [reflexivity|]. split; [constructor|reflexivity].
  - cbn [for_each] in H.
    apply bind_inv in H as [([] & w1 & Hbody & Hrest)|(e & Hbody & ->)].
    + destruct (body_shape _ _ _ _ _ Hbody) as (new1 & Htr1 & Hs1 & Hb1).
      destruct (IH _ Hrest) as (new2 & Htr2 & Hs2 & Hb2).
      exists (new1 ++ new2). split; [rewrite Htr2, Htr1, app_assoc; reflexivity|].
      split; [apply halting_shape_prepend; [exact Hs1 | exact Hs2]|].
      intros Hr. rewrite epochs_begun_app, (Hb1 eq_refl), (Hb2 Hr). reflexivity.
    + destruct (body_shape _ _ _ _ _ Hbody) as (new1 & Htr1 & Hs1 & _).
      exists new1. split; [exact Htr1|]. split; [|discriminate].
      destruct e; exact Hs1.
Qed.

Lemma exceeded_position (pre' pre post : list (event E)) (k' k : nat) (a b : line) :
  patient pre' ->
  pre' ++ [EvPatienceOver k' true; EvPrint a; EvPrint b]
    = pre ++ EvPatienceOver k true :: post ->
  pre = pre' /\ k = k' /\ post = [EvPrint a; EvPrint b].
Proof.
  intros Hp. revert pre. induction Hp as [|ev pre' Hev _ IH]; intros pre Heq.
  - destruct pre as [|ev pre].
    + inversion Heq; subst. auto.
    + inversion Heq as [[Hev Hrest]].
      destruct pre as [|ev1 pre]; [discriminate|].
      inversion Hrest as [[Hev1 Hrest1]].
      destruct pre as [|ev2 pre]; [discriminate|].
      inversion Hrest1 as [[Hev2 Hrest2]]. destruct pre; discriminate.
  - destruct pre as [|ev0 pre].
    + inversion Heq; subst. exfalso. apply Hev. exact I.
    + inversion Heq as [[Hev0 Hrest]]. subst ev0.
      destruct (IH _ Hrest) as (-> & -> & ->). auto.
Qed.

Lemma patient_not_exceeded (pre post : list (event E)) (k : nat) :
  ~ patient (pre ++ EvPatienceOver k true :: post).
Proof.
  unfold patient. rewrite Forall_app, Forall_cons. intros (_ & H & _). apply H. exact I.
Qed.

(** C4. In a run of [train], once the patience flag has been read as true
    after the [step] call of epoch [k], the run ends with [SystemExit] and the
    only things that happen after that reading are the two lines of the
    early-stopping message: no training phase, no validation phase and no
    checkpoint call of that or of a later epoch.  The flag has not been read
    as true before. *)
Theorem early_stop_ends_run self w r w' new pre k post :
  train self w = (r, w') ->
  trace w' = trace w ++ new ->
  new = pre ++ EvPatienceOver k true :: post ->
  r = Raise SystemExit /\
  post = [EvPrint LSeparator; EvPrint (LEarlyStopping k)] /\
  patient pre.
Proof.
  intros Hrun Htr Hnew. unfold train in Hrun.
  destruct (loop_shape _ _ _ _ _ Hrun) as (new' & Htr' & Hs & _).
  rewrite Htr in Htr'. apply app_inv_head in Htr'. subst new'.
  destruct r as [[]|[]]; cbn in Hs;
    try (rewrite Hnew in Hs; apply patient_not_exceeded in Hs; contradiction).
  destruct Hs as (pre' & k' & Heq & Hp). rewrite Hnew in Heq. symmetry in Heq.
  destruct (exceeded_position _ _ _ _ _ _ _ Hp Heq) as (-> & -> & ->). auto.
Qed.

(** C5 (as the code has it). [train] has no outcome value: every value
    it returns is [None].  When it returns it has begun every epoch of the
    schedule and has never read the patience flag as true; it has read the
    flag as true exactly when it ends in [SystemExit], raised by [quit()],
    which gives nothing back to the caller. *)
Theorem train_outcome self w r w' new :
  train self w = (r, w') ->
  trace w' = trace w ++ new ->
  (forall v, r = Return v -> v = tt) /\
  (r = Return tt -> epochs_begun new = range (max_epochs self) /\ patient new) /\
  (r = Raise SystemExit <-> Exists is_patience_exceeded new).
Proof.
  intros Hrun Htr. unfold train in Hrun.
  destruct (loop_shape _ _ _ _ _ Hrun) as (new' & Htr' & Hs & Hb).
  rewrite Htr in Htr'. apply app_inv_head in Htr'. subst new'.
  split; [intros []; reflexivity|]. split.
  - intros ->. split; [apply Hb; reflexivity | exact Hs].
  - split.
    + intros ->. cbn in Hs. destruct Hs as (pre & k & -> & _).
      apply Exists_app. right. constructor. exact I.
    + intros Hex. destruct r as [[]|[]]; cbn in Hs; try reflexivity; exfalso;
        unfold patient in Hs; rewrite Forall_forall in Hs;
        apply Exists_exists in Hex as (ev & Hin & Hev); exact (Hs ev Hin Hev).
Qed.

(** ** The accumulators *)



Lemma val_phase_foreign self (new : list (event E)) l :
  l <> val_acc self ->
  Forall (val_phase_event self) new ->
  Forall (fun ev => match ev with
                    | EvUpdate l' _ _ | EvReset l' => l' <> l
                    | _ => True
                    end) new.
Proof.
  intros Hl H. eapply Forall_impl; [exact H|]. intros ev Hev.
  destruct ev; cbn in *; try exact I; congruence.
Qed.




Lemma batch_events_no_reset (phi : event E -> Prop) (pre : list (event E)) :
  (forall ev, phi ev -> match ev with EvReset _ => False | _ => True end) ->
  Forall phi pre ->
  Forall (fun ev => match ev with EvReset _ => False | _ => True end) pre.
Proof. intros Himp H. eapply Forall_impl; [exact H|exact Himp]. Qed.








End Properties.

(** * Further properties of the trainer *)

Section Further.

Context {E : Collaborators}.

Implicit Types (self : Trainer E) (w : World E) (x target : Tensor E).

Ltac world_simpl :=
  cbn [ticks clock model optimizer model_checkpoint heap trace
       set_clock set_model set_optimizer set_model_checkpoint set_heap set_trace
       fst snd] in *.

(** ** What the validation phase leaves alone *)

Lemma same_parameters_refl w : same_parameters w w.
Proof. split; reflexivity. Qed.

Lemma same_parameters_trans w1 w2 w3 :
  same_parameters w1 w2 -> same_parameters w2 w3 -> same_parameters w1 w3.
Proof. intros [H1 H2] [H3 H4]. split; congruence. Qed.

Lemma keeps_bind {A B} (R : World E -> World E -> Prop) (m : M E A) (k : A -> M E B) :
  (forall w1 w2 w3, R w1 w2 -> R w2 w3 -> R w1 w3) ->
  keeps R m -> (forall a, keeps R (k a)) -> keeps R (bind m k).
Proof.
  intros Htrans Hm Hk w r w' H.
  apply bind_inv in H as [(a & w1 & H1 & H2)|(e & H1 & _)].
  - eapply Htrans; [eapply Hm | eapply Hk]; eauto.
  - eapply Hm; eauto.
Qed.

Lemma keeps_for_each {A St} (R : World E -> World E -> Prop)
    (l : list A) (body : St -> A -> M E St) (st : St) :
  (forall w, R w w) ->
  (forall w1 w2 w3, R w1 w2 -> R w2 w3 -> R w1 w3) ->
  (forall st a, keeps R (body st a)) -> keeps R (for_each l body st).
Proof.
  intros Hrefl Htrans Hb. revert st. induction l as [|a l IH]; intros st; simpl.
  - intros w r w' H. inversion H; subst. apply Hrefl.
  - apply keeps_bind; [exact Htrans | apply Hb | intros st'; apply IH].
Qed.

Lemma keeps_val_step self x target : keeps same_parameters (_val_step self x target).
Proof.
  intros w r w' H. unfold _val_step, bind, gets, unpack_kwargs, call_update, modify,
    record, ret, raise in H.
  destruct (loss_fn_args self); inversion H; subst; split; reflexivity.
Qed.

Lemma keeps_val_batch self acc item : keeps same_parameters (val_batch self acc item).
Proof.
  destruct acc as [ls ts], item as [i [x target]]. unfold val_batch.
  apply keeps_bind; [apply same_parameters_trans| |intros tic].
  { intros w r w' H. inversion H; subst. split; reflexivity. }
  apply keeps_bind; [apply same_parameters_trans|apply keeps_val_step|intros loss].
  apply keeps_bind; [apply same_parameters_trans| |intros toc].
  { intros w r w' H. inversion H; subst. split; reflexivity. }
  apply keeps_bind; [apply same_parameters_trans| |intros thr].
  { intros w r w' H. unfold py_truediv, raise, ret in H.
    destruct (Qc_is_zero _); inversion H; subst; split; reflexivity. }
  intros w r w' H. inversion H; subst. split; reflexivity.
Qed.

Lemma progress_lines_val self (new : list (event E)) :
  Forall (val_phase_event self) new -> progress_lines new = 0%nat.
Proof.
  induction 1 as [|ev new Hev _ IH]; [reflexivity|].
  unfold progress_lines in *. destruct ev as [| | | | | | |ln]; try destruct ln;
    simpl in *; try contradiction; exact IH.
Qed.

Lemma step_calls_val self (new : list (event E)) :
  Forall (val_phase_event self) new -> step_calls new = [].
Proof.
  induction 1 as [|ev new Hev _ IH]; [reflexivity|].
  unfold step_calls in *. destruct ev; simpl in *; try contradiction; exact IH.
Qed.

(** X1. Whatever its outcome, a validation phase changes nothing of the
    training state: the model is the one it had, switched to evaluation
    mode; the optimizer, the checkpoint policy and the training accumulator
    are untouched; and it prints no progress line and makes no checkpoint
    call, its only calls being on the validation accumulator. *)
Theorem validation_leaves_training_state self loader w :
  model (val_epoch self loader w).2 = model_eval E (model w) /\
  optimizer (val_epoch self loader w).2 = optimizer w /\
  model_checkpoint (val_epoch self loader w).2 = model_checkpoint w /\
  (train_acc self <> val_acc self ->
   deref (val_epoch self loader w).2 (train_acc self) = deref w (train_acc self)) /\
  exists new,
    trace (val_epoch self loader w).2 = trace w ++ new /\
    Forall (val_phase_event self) new /\
    progress_lines new = 0%nat /\ step_calls new = [].
Proof.
  destruct (val_epoch self loader w) as [r w'] eqn:Hrun. cbn [snd].
  destruct (safe_val_epoch self loader _ _ _ Hrun) as [(_ & Hc & _ & new & Htr & Hf & Hd) _].
  assert (Hp : same_parameters (set_model (model_eval E (model w)) w) w').
  { unfold val_epoch in Hrun.
    rewrite (bind_Return (modify (fun w => set_model (model_eval E (model w)) w)) _ w tt
               (set_model (model_eval E (model w)) w) eq_refl) in Hrun.
    revert Hrun. generalize (set_model (model_eval E (model w)) w). intros w0 Hrun.
    assert (K : keeps same_parameters
                  (record EvModelEval ;;
                   acc <- for_each (enumerate loader) (val_batch self) ([], []) ;;
                   (let '(epoch_loss, throughput) := acc in
                    epoch_acc <- call_compute (val_acc self) ;;
                    call_reset (val_acc self) ;;
                    ret (np_mean epoch_loss, epoch_acc, np_mean throughput)))).
    { apply keeps_bind; [apply same_parameters_trans| |intros _].
      { intros w1 r1 w2 H. inversion H; subst. split; reflexivity. }
      apply keeps_bind; [apply same_parameters_trans| |intros [ls ts]].
      { apply keeps_for_each;
          [apply same_parameters_refl | apply same_parameters_trans |
           intros; apply keeps_val_batch]. }
      intros w1 r1 w2 H.
      unfold call_compute, call_reset, record, modify, gets, bind, ret in H.
      inversion H; subst. split; reflexivity. }
    exact (K _ _ _ Hrun). }
  destruct Hp as [Hm Ho]. world_simpl.
  split; [exact Hm|]. split; [exact Ho|]. split; [exact Hc|]. split.
  - intros Hne. rewrite Hd. apply replay_foreign.
    eapply val_phase_foreign; [exact Hne | exact Hf].
  - exists new. split; [exact Htr|]. split; [exact Hf|].
    split; [eapply progress_lines_val | eapply step_calls_val]; eauto.
Qed.

(** ** The validation phase when nothing raises *)

Lemma per_batch_val_length kw tk (m : Model E) c items :
  length (per_batch_val kw tk m c items) = length items.
Proof.
  revert c. induction items as [|[x target] items IH]; intros c; cbn.
  - reflexivity.
  - rewrite IH. reflexivity.
Qed.

Lemma per_batch_val_logits kw tk (m : Model E) c items :
  map (fun v => v.2) (per_batch_val kw tk m c items)
  = map (fun b => (model_call E m b.1, b.2)) items.
Proof.
  revert c. induction items as [|[x target] items IH]; intros c; cbn.
  - reflexivity.
  - rewrite IH. reflexivity.
Qed.

(** X2. With the extra loss parameters a mapping and a clock that moves, a
    validation phase returns, whatever the logging interval is: the mean of
    the per-batch losses, the value of [compute()] on the validation
    accumulator after the [update] calls of the phase, and the mean of the
    per-batch throughputs.  Every batch is predicted by the same model, the
    one the phase started with in evaluation mode, and the validation
    accumulator is left reset. *)
Theorem validation_returns_means self loader kw w :
  loss_fn_args self = Some kw ->
  clock_advances w ->
  let vals := per_batch_val kw (ticks w) (model_eval E (model w)) (clock w) loader in
  let s := updated (deref w (val_acc self)) vals in
  exists w',
    val_epoch self loader w =
      (Return (np_mean (map (fun v => v.1.1) vals), Accuracy_compute E s,
               np_mean (map (fun v => v.1.2) vals)), w') /\
    heap w' !! val_acc self = Some (Accuracy_reset E s) /\
    length vals = length loader /\
    map (fun v => v.2) vals
      = map (fun b => (model_call E (model_eval E (model w)) b.1, b.2)) loader.
Proof.
  intros Hkw Hclk vals s.
  destruct (val_epoch_run self loader kw w Hkw Hclk) as (w' & Hrun & Hreset).
  exists w'. split; [exact Hrun|]. split; [exact Hreset|].
  split; [apply per_batch_val_length | apply per_batch_val_logits].
Qed.

(** ** Empty loaders *)


(** ** The logging interval *)



Lemma multiples_abs (k : Z) (i n : nat) :
  k <> 0 -> multiples k i n = multiples (Z.abs k) i n.
Proof.
  intros Hk. revert i. induction n as [|n IH]; intros i; [reflexivity|].
  cbn [multiples]. rewrite IH.
  destruct (decide (Z.of_nat i `mod` k = 0)) as [H|H],
           (decide (Z.of_nat i `mod` Z.abs k = 0)) as [H'|H']; try reflexivity; exfalso.
  - apply H'. apply Z.mod_divide; [lia|]. apply Z.divide_abs_l.
    apply Z.mod_divide in H; assumption.
  - apply H. apply Z.mod_divide; [exact Hk|]. apply Z.divide_abs_l.
    apply Z.mod_divide in H'; [assumption|lia].
Qed.

Lemma multiples_le (k : Z) (i n : nat) : (multiples k i n <= n)%nat.
Proof.
  revert i. induction n as [|n IH]; intros i; [reflexivity|].
  cbn [multiples]. specialize (IH (S i)).
  destruct (decide (Z.of_nat i `mod` k = 0)); lia.
Qed.

Lemma multiples_first (k : Z) (n : nat) : k <> 0 -> (0 < n)%nat -> (1 <= multiples k 0 n)%nat.
Proof.
  intros Hk Hn. destruct n as [|n]; [lia|]. cbn [multiples].
  destruct (decide (Z.of_nat 0 `mod` k = 0)) as [_|H]; [lia|].
  exfalso. apply H. apply Z.mod_0_l. exact Hk.
Qed.

(** X5. With any logging interval other than zero, negative ones included,
    a training phase over [N] batches that meets no other fault prints
    [ceil(N / |log_every|)] progress lines: the trigger
    [batch_idx % self.log_every == 0] selects the multiples of the interval.
    The first batch is always among them, and there is at most one line per
    batch. *)
Theorem progress_lines_nonzero_interval self kw w :
  loss_fn_args self = Some kw ->
  log_every self <> 0 ->
  clock_advances w ->
  exists res w' new,
    train_epoch self w = (Return res, w') /\
    trace w' = trace w ++ new /\
    Z.of_nat (progress_lines new)
      = ceil_div (Z.of_nat (length (train_loader self))) (Z.abs (log_every self)) /\
    (train_loader self <> [] -> (1 <= progress_lines new)%nat) /\
    (progress_lines new <= length (train_loader self))%nat.
Proof.
  intros Hkw Hk Hclk.
  destruct (train_epoch_run self kw w Hkw Hk Hclk) as (w' & Hrun & _ & Hp).
  destruct (safe_train_epoch self _ _ _ Hrun) as [(_ & _ & _ & new & Htr & _) _].
  eexists _, w', new. split; [exact Hrun|]. split; [exact Htr|].
  rewrite Htr, progress_lines_app in Hp.
  assert (Hnew : progress_lines new
                 = multiples (log_every self) 0 (length (train_loader self))) by lia.
  rewrite Hnew. split; [|split].
  - rewrite multiples_abs by exact Hk. apply multiples_from_zero. lia.
  - intros Hne. apply multiples_first; [exact Hk|].
    destruct (train_loader self); [contradiction|cbn; lia].
  - apply multiples_le.
Qed.

(** ** A phase that raises *)

(** X6. A phase that raises has made neither its [compute()] nor its
    [reset()] call: it stopped inside a batch, never with [SystemExit], and
    its accumulator holds the [update] calls of the batches whose step was
    run, on top of what it held before. *)
Theorem failed_phase_keeps_updates self loader w :
  (forall e w',
     train_epoch self w = (Raise e, w') ->
     e <> SystemExit /\
     exists pre,
       trace w' = trace w ++ EvModelTrain :: pre /\
       Forall (train_batch_event self) pre /\
       deref w' (train_acc self)
         = after_updates (train_acc self) pre (deref w (train_acc self))) /\
  (forall e w',
     val_epoch self loader w = (Raise e, w') ->
     e <> SystemExit /\
     exists pre,
       trace w' = trace w ++ EvModelEval :: pre /\
       Forall (val_batch_event self) pre /\
       deref w' (val_acc self)
         = after_updates (val_acc self) pre (deref w (val_acc self))).
Proof.
  split; intros e w' Hrun.
  - split.
    { destruct (safe_train_epoch self _ _ _ Hrun) as [_ Hne].
      intros ->. apply Hne. reflexivity. }
    unfold train_epoch in Hrun.
    rewrite (bind_Return (modify (fun w => set_model (model_train E (model w)) w)) _ w tt
               (set_model (model_train E (model w)) w) eq_refl) in Hrun.
    match type of Hrun with context [bind (record ?ev) ?k ?w0] =>
      rewrite (bind_Return (record ev) k w0 tt (set_trace (trace w0 ++ [ev]) w0) eq_refl)
        in Hrun
    end.
    apply bind_inv in Hrun as [([ls ts] & w1 & _ & H)|(e' & Hloop & _)].
    { unfold call_compute, call_reset, record, modify, gets, bind, ret in H. discriminate H. }
    assert (Hf : safe (frame (train_batch_event self))
                   (for_each (enumerate (train_loader self)) (train_batch self) ([], [])))
      by (apply safe_for_each; intros; apply safe_train_batch).
    destruct (Hf _ _ _ Hloop) as [(_ & _ & _ & pre & Htr & Hpre & Hd) _].
    world_simpl. exists pre. split; [rewrite Htr, <- app_assoc; reflexivity|].
    split; [exact Hpre|]. rewrite Hd. unfold after_updates.
    rewrite deref_set_trace. unfold deref at 1 2. world_simpl. fold (deref w (train_acc self)).
    apply replay_no_reset. eapply batch_events_no_reset; [|exact Hpre].
    intros ev. destruct ev; cbn; tauto.
  - split.
    { destruct (safe_val_epoch self loader _ _ _ Hrun) as [_ Hne].
      intros ->. apply Hne. reflexivity. }
    unfold val_epoch in Hrun.
    rewrite (bind_Return (modify (fun w => set_model (model_eval E (model w)) w)) _ w tt
               (set_model (model_eval E (model w)) w) eq_refl) in Hrun.
    match type of Hrun with context [bind (record ?ev) ?k ?w0] =>
      rewrite (bind_Return (record ev) k w0 tt (set_trace (trace w0 ++ [ev]) w0) eq_refl)
        in Hrun
    end.
    apply bind_inv in Hrun as [([ls ts] & w1 & _ & H)|(e' & Hloop & _)].
    { unfold call_compute, call_reset, record, modify, gets, bind, ret in H. discriminate H. }
    assert (Hf : safe (frame (val_batch_event self))
                   (for_each (enumerate loader) (val_batch self) ([], [])))
      by (apply safe_for_each; intros; apply safe_val_batch).
    destruct (Hf _ _ _ Hloop) as [(_ & _ & _ & pre & Htr & Hpre & Hd) _].
    world_simpl. exists pre. split; [rewrite Htr, <- app_assoc; reflexivity|].
    split; [exact Hpre|]. rewrite Hd. unfold after_updates.
    rewrite deref_set_trace. unfold deref at 1 2. world_simpl. fold (deref w (val_acc self)).
    apply replay_no_reset. eapply batch_events_no_reset; [|exact Hpre].
    intros ev. destruct ev; cbn; tauto.
Qed.

(** ** Runs without a checkpoint policy *)

Lemma phases_event_no_policy self (ev : event E) : phases_event self ev -> no_policy_event ev.
Proof. destruct ev as [| | | | | | |ln]; try destruct ln; cbn; tauto. Qed.

Lemma body_without_policy self epoch w r w' :
  model_checkpoint w = None ->
  train_body self tt epoch w = (r, w') ->
  r <> Raise SystemExit /\ model_checkpoint w' = None /\
  exists new, trace w' = trace w ++ new /\ Forall no_policy_event new.
Proof.
  intros Hc Hbody. destruct (phases self epoch w) as [[metrics|e] w1] eqn:Hph.
  - destruct (phases_safe _ _ _ _ _ Hph) as (_ & _ & Hc1 & _ & rest & Htr1 & Hrest).
    destruct (body_after_phases _ _ _ _ _ Hph) as (w2 & Hbody2 & Htr2 & Hmc & _).
    rewrite Hbody in Hbody2. inversion Hbody2; subst r w2; clear Hbody2.
    unfold ending in *. rewrite Hc1, Hc in *. cbn [fst snd] in *.
    split; [discriminate|]. split; [exact Hmc|].
    eexists. split; [rewrite Htr2, Htr1, <- app_assoc; reflexivity|].
    constructor; [exact I|]. apply Forall_app. split.
    + eapply Forall_impl; [exact Hrest|]. apply phases_event_no_policy.
    + repeat constructor.
  - destruct (phases_safe _ _ _ _ _ Hph) as (Hne & _ & Hc1 & _ & rest & Htr1 & Hrest).
    rewrite (body_phases_raise _ _ _ _ _ Hph) in Hbody. inversion Hbody; subst.
    split; [intros Heq; inversion Heq; subst; apply Hne; reflexivity|].
    split; [congruence|]. eexists. split; [exact Htr1|].
    constructor; [exact I|]. eapply Forall_impl; [exact Hrest|].
    apply phases_event_no_policy.
Qed.

Lemma loop_without_policy self (es : list nat) w r w' :
  model_checkpoint w = None ->
  for_each es (train_body self) tt w = (r, w') ->
  r <> Raise SystemExit /\ model_checkpoint w' = None /\
  exists new, trace w' = trace w ++ new /\ Forall no_policy_event new.
Proof.
  revert w. induction es as [|epoch es IH]; intros w Hc H.
  - inversion H; subst. split; [discriminate|]. split; [exact Hc|].
    exists []. rewrite app_nil_r. split; [reflexivity|constructor].
  - cbn [for_each] in H.
    apply bind_inv in H as [([] & w1 & Hbody & Hrest)|(e & Hbody & ->)].
    + destruct (body_without_policy _ _ _ _ _ Hc Hbody) as (_ & Hc1 & new1 & Htr1 & Hf1).
      destruct (IH _ Hc1 Hrest) as (Hr & Hc2 & new2 & Htr2 & Hf2).
      split; [exact Hr|]. split; [exact Hc2|]. exists (new1 ++ new2).
      split; [rewrite Htr2, Htr1, app_assoc; reflexivity|]. apply Forall_app. auto.
    + destruct (body_without_policy _ _ _ _ _ Hc Hbody) as (Hr & Hc1 & new1 & Htr1 & Hf1).
      split; [exact Hr|]. split; [exact Hc1|]. exists new1. auto.
Qed.

(** X7. Without a checkpoint policy a run of [train] never stops early: it
    does not end in [SystemExit], it makes no [step] call and never reads a
    patience flag, and the trainer still has no policy afterwards. *)
Theorem no_policy_no_early_stop self w :
  model_checkpoint w = None ->
  (train self w).1 <> Raise SystemExit /\
  model_checkpoint (train self w).2 = None /\
  exists new,
    trace (train self w).2 = trace w ++ new /\
    Forall no_policy_event new /\ step_calls new = [].
Proof.
  intros Hc. destruct (train self w) as [r w'] eqn:Hrun. cbn [fst snd].
  unfold train in Hrun.
  destruct (loop_without_policy _ _ _ _ _ Hc Hrun) as (Hr & Hc' & new & Htr & Hf).
  split; [exact Hr|]. split; [exact Hc'|]. exists new.
  split; [exact Htr|]. split; [exact Hf|].
  clear Htr. induction Hf as [|ev new Hev _ IH]; [reflexivity|].
  unfold step_calls in *. destruct ev; simpl in *; try contradiction; exact IH.
Qed.

Lemma phases_complete self kw epoch w :
  loss_fn_args self = Some kw ->
  log_every self <> 0 ->
  clock_advances w ->
  exists metrics w1,
    phases self epoch w = (Return metrics, w1) /\
    progress_lines (trace w1)
      = (progress_lines (trace w)
         + multiples (log_every self) 0 (length (train_loader self)))%nat.
Proof.
  intros Hkw Hk Hclk. rewrite phases_run. unfold phases_after_banner.
  match goal with |- context [bind perf_counter ?k ?w0] =>
    rewrite (bind_Return perf_counter k w0 (ticks w0 (clock w0))
               (set_clock (S (clock w0)) w0) eq_refl)
  end.
  match goal with |- context [bind (train_epoch self) _ ?wa] =>
    destruct (train_epoch_run self kw wa Hkw Hk (fun n => Hclk n)) as (wb & Hrun & _ & Hp);
    destruct (safe_train_epoch self _ _ _ Hrun) as [(Htk & _) _]
  end.
  rewrite (bind_Return _ _ _ _ _ Hrun).
  match goal with |- context [bind perf_counter ?k ?w0] =>
    rewrite (bind_Return perf_counter k w0 (ticks w0 (clock w0))
               (set_clock (S (clock w0)) w0) eq_refl)
  end.
  match goal with |- context [bind (print ?ln) ?k ?w0] =>
    rewrite (bind_Return (print ln) k w0 tt (set_trace (trace w0 ++ [EvPrint ln]) w0) eq_refl)
  end.
  world_simpl. rewrite progress_lines_app in Hp. cbn [progress_lines List.filter
    is_progress_line length] in Hp.
  destruct (val_loader self) as [loader|].
  - match goal with |- context [bind (print ?ln) ?k ?w0] =>
      rewrite (bind_Return (print ln) k w0 tt (set_trace (trace w0 ++ [EvPrint ln]) w0) eq_refl)
    end.
    match goal with |- context [bind (val_epoch self loader) _ ?wc] =>
      assert (Hclk_c : clock_advances wc)
        by (intros n; world_simpl; rewrite Htk; apply Hclk);
      destruct (val_epoch_run self loader kw wc Hkw Hclk_c) as (wd & Hval & _);
      destruct (safe_val_epoch self loader _ _ _ Hval)
        as [(_ & _ & _ & new & Htrv & Hfv & _) _]
    end.
    rewrite (bind_Return _ _ _ _ _ Hval).
    unfold print, record, modify, bind, ret. eexists _, _. split; [reflexivity|].
    world_simpl. rewrite progress_lines_app, Htrv, progress_lines_app.
    rewrite (progress_lines_val _ _ Hfv), !progress_lines_app. cbn. lia.
  - unfold ret. eexists _, _. split; [reflexivity|].
    world_simpl. rewrite progress_lines_app. cbn. lia.
Qed.

Lemma body_complete self kw epoch w :
  loss_fn_args self = Some kw ->
  log_every self <> 0 ->
  clock_advances w ->
  model_checkpoint w = None ->
  exists w',
    train_body self tt epoch w = (Return tt, w') /\
    clock_advances w' /\ model_checkpoint w' = None /\
    progress_lines (trace w')
      = (progress_lines (trace w)
         + multiples (log_every self) 0 (length (train_loader self)))%nat.
Proof.
  intros Hkw Hk Hclk Hc.
  destruct (phases_complete self kw epoch w Hkw Hk Hclk) as (metrics & w1 & Hph & Hp).
  destruct (phases_safe _ _ _ _ _ Hph) as (_ & Htk & Hc1 & _).
  destruct (body_after_phases _ _ _ _ _ Hph) as (w2 & Hbody & Htr2 & Hmc & _ & Htk2).
  unfold ending in *. rewrite Hc1, Hc in *. cbn [fst snd] in *.
  exists w2. split; [exact Hbody|]. split; [|split; [exact Hmc|]].
  - intros n. rewrite Htk2, Htk. apply Hclk.
  - rewrite Htr2, progress_lines_app, Hp. cbn. lia.
Qed.

(** X8. Without a checkpoint policy, with the extra loss parameters a
    mapping, a logging interval other than zero and a clock that moves,
    [train] returns: it begins every epoch of [range(max_epochs)] in order
    and prints, in each, the progress lines of one training phase. *)
Theorem train_completes_without_policy self kw w :
  loss_fn_args self = Some kw ->
  log_every self <> 0 ->
  clock_advances w ->
  model_checkpoint w = None ->
  exists w' new,
    train self w = (Return tt, w') /\
    trace w' = trace w ++ new /\
    epochs_begun new = range (max_epochs self) /\
    progress_lines new
      = (length (range (max_epochs self))
         * multiples (log_every self) 0 (length (train_loader self)))%nat.
Proof.
  intros Hkw Hk Hclk Hc. unfold train.
  assert (Hloop : forall es w, clock_advances w -> model_checkpoint w = None ->
            exists w', for_each es (train_body self) tt w = (Return tt, w') /\
              progress_lines (trace w')
                = (progress_lines (trace w)
                   + length es * multiples (log_every self) 0
                                   (length (train_loader self)))%nat).
  { clear w Hclk Hc. intros es. induction es as [|epoch es IH]; intros w Hclk Hc.
    - exists w. split; [reflexivity|]. cbn. lia.
    - destruct (body_complete self kw epoch w Hkw Hk Hclk Hc)
        as (w1 & Hbody & Hclk1 & Hc1 & Hp1).
      destruct (IH w1 Hclk1 Hc1) as (w2 & Hrest & Hp2).
      exists w2. cbn [for_each]. rewrite (bind_Return _ _ _ _ _ Hbody).
      split; [exact Hrest|]. rewrite Hp2, Hp1. cbn [length]. lia. }
  destruct (Hloop (range (max_epochs self)) w Hclk Hc) as (w' & Hrun & Hp).
  destruct (loop_shape _ _ _ _ _ Hrun) as (new & Htr & _ & Hb).
  exists w', new. split; [exact Hrun|]. split; [exact Htr|].
  split; [apply Hb; reflexivity|].
  rewrite Htr, progress_lines_app in Hp. lia.
Qed.

(** ** Runs with a checkpoint policy *)

Lemma step_epochs_app (tr1 tr2 : list (event E)) :
  step_epochs (tr1 ++ tr2) = step_epochs tr1 ++ step_epochs tr2.
Proof. unfold step_epochs. rewrite step_calls_app. apply map_app. Qed.

Lemma step_epochs_phases self (rest : list (event E)) :
  Forall (phases_event self) rest -> step_epochs rest = [].
Proof. intros H. unfold step_epochs. rewrite (step_calls_phases _ _ H). reflexivity. Qed.

Lemma body_with_policy self epoch w c r w' :
  model_checkpoint w = Some c ->
  train_body self tt epoch w = (r, w') ->
  is_Some (model_checkpoint w') /\
  exists new,
    trace w' = trace w ++ new /\
    epochs_begun new = [epoch] /\
    step_epochs new = match r with
                      | Return _ | Raise SystemExit => [epoch]
                      | Raise _ => []
                      end.
Proof.
  intros Hc Hbody. destruct (phases self epoch w) as [[metrics|e] w1] eqn:Hph.
  - destruct (phases_safe _ _ _ _ _ Hph) as (_ & _ & Hc1 & _ & rest & Htr1 & Hrest).
    destruct (body_after_phases _ _ _ _ _ Hph) as (w2 & Hbody2 & Htr2 & Hmc & _).
    rewrite Hbody in Hbody2. inversion Hbody2; subst r w2; clear Hbody2.
    assert (Hb : epochs_begun (EvPrint (LEpoch epoch (max_epochs self)) :: rest) = [epoch]).
    { change (EvPrint (LEpoch epoch (max_epochs self)) :: rest)
        with ([EvPrint (LEpoch epoch (max_epochs self))] ++ rest).
      rewrite epochs_begun_app, (epochs_begun_phases _ _ Hrest). reflexivity. }
    assert (Hs : step_epochs (EvPrint (LEpoch epoch (max_epochs self)) :: rest) = []).
    { change (EvPrint (LEpoch epoch (max_epochs self)) :: rest)
        with ([EvPrint (LEpoch epoch (max_epochs self))] ++ rest).
      rewrite step_epochs_app, (step_epochs_phases _ _ Hrest). reflexivity. }
    unfold ending in *. rewrite Hc1, Hc in *.
    destruct (patience_over E _); cbn [fst snd] in *;
      (split; [rewrite Hmc; eauto|]); eexists;
      (split; [rewrite Htr2, Htr1, <- app_assoc; reflexivity|]);
      rewrite ?app_comm_cons, epochs_begun_app, step_epochs_app, Hb, Hs; split; reflexivity.
  - destruct (phases_safe _ _ _ _ _ Hph) as (Hne & _ & Hc1 & _ & rest & Htr1 & Hrest).
    rewrite (body_phases_raise _ _ _ _ _ Hph) in Hbody. inversion Hbody; subst.
    split; [rewrite Hc1, Hc; eauto|]. eexists. split; [exact Htr1|].
    change (EvPrint (LEpoch epoch (max_epochs self)) :: rest)
      with ([EvPrint (LEpoch epoch (max_epochs self))] ++ rest).
    rewrite epochs_begun_app, step_epochs_app, (epochs_begun_phases _ _ Hrest),
      (step_epochs_phases _ _ Hrest).
    split; [reflexivity|]. destruct e; try reflexivity. exfalso. apply Hne. reflexivity.
Qed.

Lemma loop_with_policy self (es : list nat) w c r w' :
  model_checkpoint w = Some c ->
  for_each es (train_body self) tt w = (r, w') ->
  exists new,
    trace w' = trace w ++ new /\
    match r with
    | Return _ => step_epochs new = es /\ epochs_begun new = es
    | Raise e =>
        exists es1 k es2,
          es = es1 ++ k :: es2 /\
          epochs_begun new = es1 ++ [k] /\
          step_epochs new = es1 ++ match e with SystemExit => [k] | _ => [] end
    end.
Proof.
  revert w c. induction es as [|epoch es IH]; intros w c Hc H.
  - inversion H; subst. exists []. rewrite app_nil_r. auto.
  - cbn [for_each] in H.
    apply bind_inv in H as [([] & w1 & Hbody & Hrest)|(e & Hbody & ->)].
    + destruct (body_with_policy _ _ _ _ _ _ Hc Hbody) as ([c1 Hc1] & new1 & Htr1 & Hb1 & Hs1).
      destruct (IH _ _ Hc1 Hrest) as (new2 & Htr2 & Hshape).
      exists (new1 ++ new2). split; [rewrite Htr2, Htr1, app_assoc; reflexivity|].
      rewrite epochs_begun_app, step_epochs_app, Hb1, Hs1.
      destruct r as [[]|e].
      * destruct Hshape as [-> ->]. auto.
      * destruct Hshape as (es1 & k & es2 & -> & -> & ->).
        exists (epoch :: es1), k, es2. auto.
    + destruct (body_with_policy _ _ _ _ _ _ Hc Hbody) as (_ & new1 & Htr1 & Hb1 & Hs1).
      exists new1. split; [exact Htr1|].
      exists [], epoch, es. rewrite Hb1, Hs1. destruct e; repeat split.
Qed.

Lemma seq_split (n : nat) (es1 : list nat) (k : nat) (es2 : list nat) :
  seq 0 n = es1 ++ k :: es2 -> es1 = seq 0 k /\ (k < n)%nat.
Proof.
  intros H.
  assert (Hk : seq 0 n !! length es1 = Some k)
    by (rewrite H; apply list_lookup_middle; reflexivity).
  apply lookup_seq in Hk as [Hk Hlt]. cbn in Hk. subst k. split; [|exact Hlt].
  transitivity (take (length es1) (seq 0 n)).
  - rewrite H, take_app_length. reflexivity.
  - rewrite take_seq. f_equal. lia.
Qed.

(** X9. With a checkpoint policy configured, a run of [train] calls [step]
    once per epoch, in the order of the epochs [0, 1, ...]: for every epoch
    of the schedule when the run returns; for the epochs up to and including
    the one in which the patience flag read true when it stops early; and
    only for the epochs before the one in which a phase raised otherwise. *)
Theorem one_step_per_epoch self c w :
  model_checkpoint w = Some c ->
  exists new,
    trace (train self w).2 = trace w ++ new /\
    match (train self w).1 with
    | Return _ =>
        step_epochs new = range (max_epochs self) /\
        epochs_begun new = range (max_epochs self)
    | Raise e =>
        exists k,
          (k < length (range (max_epochs self)))%nat /\
          epochs_begun new = seq 0 (S k) /\
          step_epochs new = match e with SystemExit => seq 0 (S k) | _ => seq 0 k end
    end.
Proof.
  intros Hc. destruct (train self w) as [r w'] eqn:Hrun. cbn [fst snd].
  unfold train in Hrun.
  destruct (loop_with_policy _ _ _ _ _ _ Hc Hrun) as (new & Htr & Hshape).
  exists new. split; [exact Htr|]. destruct r as [[]|e]; [exact Hshape|].
  destruct Hshape as (es1 & k & es2 & Hes & Hb & Hs).
  unfold range in *. destruct (seq_split _ _ _ _ Hes) as [-> Hlt].
  exists k. rewrite length_seq. split; [exact Hlt|].
  rewrite seq_S. cbn [Nat.add]. split; [exact Hb|].
  rewrite Hs. destruct e; rewrite ?app_nil_r; reflexivity.
Qed.

(** ** Construction *)


End Further.

(** * Concrete runs *)

Module Runs.

Import Toy.

Lemma init_run (args : option (gmap string Z)) (n : nat)
    (val : option (list (list Z * list Z))) (f : Qc) (epochs : Z)
    (c : option policy) (clk : nat -> Qc) :
  __init__ (config args n val f epochs) (world0 c clk)
  = (Return (trainer args n val
               (py_int (f * Qc_of_Z (Z.of_nat (length (replicate n batch4))))%Qc) epochs),
     world1 c clk).
Proof. reflexivity. Qed.

Lemma seconds_step (n : nat) : (seconds (S n) - seconds n)%Qc = Qc_of_Z 1.
Proof.
  unfold seconds, Qc_of_Z. rewrite Nat2Z.inj_succ. unfold Z.succ.
  apply Qc_is_canon. unfold Qcminus, Qcplus, Qcopp, Q2Qc. cbn [this].
  rewrite !Qred_correct, inject_Z_plus. ring.
Qed.

Lemma seconds_advance (c : option policy) : clock_advances (world1 c seconds).
Proof.
  intros n Heq. cbn [ticks world1] in Heq.
  pose proof (seconds_step n) as Hs. rewrite Heq in Hs.
  assert (H0 : (seconds n - seconds n)%Qc = Qc_of_Z 0) by (change (Qc_of_Z 0) with 0%Qc; ring).
  rewrite H0 in Hs. discriminate Hs.
Qed.

(** A run that stops early never returns to its caller. *)
Lemma early_stop_never_returns {E : Collaborators} (self : Trainer E) (w : World E) (o : unit) :
  Exists is_patience_exceeded (events_of (train self) w) ->
  (train self w).1 <> Return o.
Proof.
  intros Hex Hr. unfold events_of in Hex.
  destruct (train self w) as [r w'] eqn:Hrun. cbn [fst snd] in *. subst r.
  unfold train in Hrun. destruct (loop_shape _ _ _ _ _ Hrun) as (new & Htr & Hs & _).
  rewrite Htr, drop_app_length in Hex. cbn in Hs.
  unfold patient in Hs. rewrite Forall_forall in Hs.
  apply Exists_exists in Hex as (ev & Hin & Hev). exact (Hs ev Hin Hev).
Qed.

(** ** Inputs on which the code departs from a claim *)


(** C5: a policy with patience 1 and a loss that does not improve.  The run
    stops early in epoch 1 and gives its caller no value; and no two runs of
    [train] return values that differ. *)
Lemma early_stop_gives_no_outcome :
  (train early_trainer early_world).1 = Raise SystemExit /\
  forall E : Collaborators, ~ outcome_distinguishes (E := E).
Proof.
  split; [vm_compute; reflexivity|].
  intros E (self1 & self2 & w1 & w2 & o1 & o2 & Hearly & Hr1 & _).
  exact (early_stop_never_returns self1 w1 o1 Hearly Hr1).
Qed.


(** ** The theorems at concrete inputs *)

Lemma log_every_zero_raises_witness :
  py_int (tenth * Qc_of_Z (Z.of_nat (length (replicate 5 batch4))))%Qc = 0 /\
  (train_epoch (trainer (Some ∅) 5 None 0 1) (world1 None seconds)).1
    = Raise ZeroDivisionError /\
  ceil_div 5 (Z.max 1 0) = 5.
Proof.
  split; [reflexivity|]. split; [|reflexivity].
  destruct (log_every_zero_raises (config (Some ∅) 5 None tenth 1) (world0 None seconds)
              (trainer (Some ∅) 5 None 0 1) (world1 None seconds) (world1 None seconds)
              (init_run (Some ∅) 5 None tenth 1 None seconds)
              ltac:(discriminate) eq_refl)
    as (e & w' & Hrun & _ & He & _).
  rewrite Hrun. cbn [fst]. f_equal. apply He. discriminate.
Defined.



Lemma history_from_start {E : Collaborators} (w : World E) (tr : list (event E)) :
  trace w = [] -> tr = trace w ++ tr.
Proof. intros ->. reflexivity. Qed.

(** Splitting a history at a reading of the patience flag as true. *)
Lemma split_at_exceeded {E : Collaborators} (tr : list (event E)) (n k : nat) :
  match tr !! n with
  | Some (EvPatienceOver k' true) => Nat.eqb k k'
  | _ => false
  end = true ->
  tr = take n tr ++ EvPatienceOver k true :: drop (S n) tr.
Proof.
  destruct (tr !! n) as [ev|] eqn:Hn; [|discriminate].
  destruct ev as [| | | | | |k' []|]; try discriminate.
  intros Hk. apply Nat.eqb_eq in Hk. subst k'.
  symmetry. apply take_drop_middle. exact Hn.
Qed.

Lemma early_stop_ends_run_witness :
  match trace (train early_trainer early_world).2 !! 30%nat with
  | Some (EvPatienceOver k' true) => Nat.eqb 1 k'
  | _ => false
  end = true /\
  (train early_trainer early_world).1 = Raise SystemExit /\
  drop 31 (trace (train early_trainer early_world).2)
    = [EvPrint LSeparator; EvPrint (LEarlyStopping 1)].
Proof.
  assert (Hat : match trace (train early_trainer early_world).2 !! 30%nat with
                | Some (EvPatienceOver k' true) => Nat.eqb 1 k'
                | _ => false
                end = true) by (vm_compute; reflexivity).
  split; [exact Hat|].
  pose proof (early_stop_ends_run early_trainer early_world
                (train early_trainer early_world).1 (train early_trainer early_world).2
                (trace (train early_trainer early_world).2)
                (take 30 (trace (train early_trainer early_world).2)) 1%nat
                (drop 31 (trace (train early_trainer early_world).2))
                (surjective_pairing (train early_trainer early_world))
                (history_from_start early_world
                   (trace (train early_trainer early_world).2) eq_refl)
                (split_at_exceeded (trace (train early_trainer early_world).2) 30 1 Hat))
    as H.
  exact (conj (proj1 H) (proj1 (proj2 H))).
Defined.

Lemma train_outcome_witness :
  (train (trainer (Some ∅) 1 None 1 2) (world1 None seconds)).1 = Return tt /\
  epochs_begun (trace (train (trainer (Some ∅) 1 None 1 2) (world1 None seconds)).2)
    = [0; 1]%nat.
Proof.
  assert (Hr : (train (trainer (Some ∅) 1 None 1 2) (world1 None seconds)).1 = Return tt)
    by (vm_compute; reflexivity).
  split; [exact Hr|].
  destruct (train_outcome (trainer (Some ∅) 1 None 1 2) (world1 None seconds)
              (train (trainer (Some ∅) 1 None 1 2) (world1 None seconds)).1
              (train (trainer (Some ∅) 1 None 1 2) (world1 None seconds)).2
              (trace (train (trainer (Some ∅) 1 None 1 2) (world1 None seconds)).2)
              (surjective_pairing (train (trainer (Some ∅) 1 None 1 2) (world1 None seconds)))
              (history_from_start (world1 None seconds)
                 (trace (train (trainer (Some ∅) 1 None 1 2) (world1 None seconds)).2)
                 eq_refl)) as (_ & H & _).
  exact (proj1 (H Hr)).
Defined.





Lemma default_loss_fn_args_type_error_witness :
  cfg_loss_fn_args (config None 3 None tenth 1) = None /\
  _train_step (trainer None 3 None 0 1) [0; 0; 0; 0] [1; 1; 1; 1] (world1 None seconds)
    = (Raise TypeError, world1 None seconds) /\
  _val_step (trainer None 3 None 0 1) [0; 0; 0; 0] [1; 1; 1; 1] (world1 None seconds)
    = (Raise TypeError, world1 None seconds).
Proof.
  split; [reflexivity|].
  exact (proj1 (default_loss_fn_args_type_error (config None 3 None tenth 1)
                  (world0 None seconds) (trainer None 3 None 0 1) (world1 None seconds)
                  [0; 0; 0; 0] [1; 1; 1; 1] (world1 None seconds)
                  (init_run None 3 None tenth 1 None seconds)) eq_refl).
Defined.

(** ** The further properties at concrete inputs *)

Lemma validation_returns_means_witness :
  loss_fn_args (trainer (Some ∅) 1 None 1 1) = Some ∅ /\
  clock_advances (world1 None seconds) /\
  exists res w',
    val_epoch (trainer (Some ∅) 1 None 1 1) [batch4] (world1 None seconds)
      = (Return res, w') /\
    heap w' !! 1%nat = Some (0, 0)%nat.
Proof.
  split; [reflexivity|]. split; [exact (seconds_advance None)|].
  destruct (validation_returns_means (trainer (Some ∅) 1 None 1 1) [batch4] ∅
              (world1 None seconds) eq_refl (seconds_advance None))
    as (w' & Hrun & Hreset & _).
  eexists _, w'. split; [exact Hrun | exact Hreset].
Defined.



Lemma progress_lines_nonzero_interval_witness :
  loss_fn_args (trainer (Some ∅) 5 None (-2) 1) = Some ∅ /\
  log_every (trainer (Some ∅) 5 None (-2) 1) <> 0 /\
  exists res w' new,
    train_epoch (trainer (Some ∅) 5 None (-2) 1) (world1 None seconds) = (Return res, w') /\
    trace w' = trace (world1 None seconds) ++ new /\
    progress_lines new = 3%nat.
Proof.
  split; [reflexivity|]. split; [discriminate|].
  destruct (progress_lines_nonzero_interval (trainer (Some ∅) 5 None (-2) 1) ∅
              (world1 None seconds) eq_refl ltac:(discriminate) (seconds_advance None))
    as (res & w' & new & Hrun & Htr & Hcount & _).
  exists res, w', new. split; [exact Hrun|]. split; [exact Htr|].
  apply Nat2Z.inj. exact Hcount.
Defined.

Lemma failed_phase_keeps_updates_witness :
  (train_epoch (trainer (Some ∅) 3 None 0 1) (world1 None seconds)).1
    = Raise ZeroDivisionError /\
  exists pre,
    trace (train_epoch (trainer (Some ∅) 3 None 0 1) (world1 None seconds)).2
      = trace (world1 None seconds) ++ EvModelTrain :: pre /\
    deref (train_epoch (trainer (Some ∅) 3 None 0 1) (world1 None seconds)).2 0%nat
      = after_updates 0%nat pre (0, 0)%nat.
Proof.
  assert (Hr : (train_epoch (trainer (Some ∅) 3 None 0 1) (world1 None seconds)).1
               = Raise ZeroDivisionError) by (vm_compute; reflexivity).
  split; [exact Hr|].
  assert (Hrun : train_epoch (trainer (Some ∅) 3 None 0 1) (world1 None seconds)
                 = (Raise ZeroDivisionError,
                    (train_epoch (trainer (Some ∅) 3 None 0 1) (world1 None seconds)).2))
    by (rewrite <- Hr; apply surjective_pairing).
  destruct (proj1 (failed_phase_keeps_updates (trainer (Some ∅) 3 None 0 1) []
                     (world1 None seconds))
              ZeroDivisionError
              (train_epoch (trainer (Some ∅) 3 None 0 1) (world1 None seconds)).2 Hrun)
    as (_ & pre & Htr & _ & Hd).
  exists pre. split; [exact Htr | exact Hd].
Defined.

Lemma no_policy_no_early_stop_witness :
  model_checkpoint (world1 None seconds) = None /\
  (train (trainer (Some ∅) 1 None 1 2) (world1 None seconds)).1 <> Raise SystemExit /\
  model_checkpoint (train (trainer (Some ∅) 1 None 1 2) (world1 None seconds)).2 = None.
Proof.
  split; [reflexivity|].
  destruct (no_policy_no_early_stop (trainer (Some ∅) 1 None 1 2) (world1 None seconds)
              eq_refl) as (Hr & Hc & _).
  split; [exact Hr | exact Hc].
Defined.

Lemma train_completes_without_policy_witness :
  loss_fn_args (trainer (Some ∅) 3 None 2 2) = Some ∅ /\
  log_every (trainer (Some ∅) 3 None 2 2) <> 0 /\
  clock_advances (world1 None seconds) /\
  model_checkpoint (world1 None seconds) = None /\
  exists w' new,
    train (trainer (Some ∅) 3 None 2 2) (world1 None seconds) = (Return tt, w') /\
    trace w' = trace (world1 None seconds) ++ new /\
    epochs_begun new = [0; 1]%nat /\
    progress_lines new = 4%nat.
Proof.
  split; [reflexivity|]. split; [discriminate|].
  split; [exact (seconds_advance None)|]. split; [reflexivity|].
  exact (train_completes_without_policy (trainer (Some ∅) 3 None 2 2) ∅
           (world1 None seconds) eq_refl ltac:(discriminate) (seconds_advance None) eq_refl).
Defined.

Lemma one_step_per_epoch_witness :
  model_checkpoint early_world = Some (mkPolicy 1 None 0) /\
  (train early_trainer early_world).1 = Raise SystemExit /\
  exists new k,
    trace (train early_trainer early_world).2 = trace early_world ++ new /\
    (k < 5)%nat /\
    epochs_begun new = seq 0 (S k) /\
    step_epochs new = seq 0 (S k).
Proof.
  split; [reflexivity|].
  assert (Hr : (train early_trainer early_world).1 = Raise SystemExit)
    by (vm_compute; reflexivity).
  split; [exact Hr|].
  destruct (one_step_per_epoch early_trainer (mkPolicy 1 None 0) early_world eq_refl)
    as (new & Htr & Hshape).
  rewrite Hr in Hshape. destruct Hshape as (k & Hlt & Hb & Hs).
  exists new, k. split; [exact Htr|]. split; [exact Hlt|]. split; [exact Hb | exact Hs].
Defined.

Lemma validation_leaves_training_state_witness :
  train_acc (trainer (Some ∅) 1 None 1 1) <> val_acc (trainer (Some ∅) 1 None 1 1) /\
  model (val_epoch (trainer (Some ∅) 1 None 1 1) [batch4] (world1 None seconds)).2
    = (0, false) /\
  deref (val_epoch (trainer (Some ∅) 1 None 1 1) [batch4] (world1 None seconds)).2 0%nat
    = (0, 0)%nat.
Proof.
  split; [discriminate|].
  destruct (validation_leaves_training_state (trainer (Some ∅) 1 None 1 1) [batch4]
              (world1 None seconds)) as (Hm & _ & _ & Hd & _).
  split; [exact Hm | exact (Hd ltac:(discriminate))].
Defined.


End Runs.
